(** * Post-op assistant (Streamlit.py): the script as a state-and-exception
      program over the session state, and the properties of its
      conversation-and-context assembly.

    The Streamlit script is re-executed from top to bottom on every user
    interaction.  One execution is [script]; what it reads from the outside
    (the environment variable, the two directories, the widget values of this
    run, the way the completion provider answers) is passed in, and what it
    keeps ([st.session_state], the Python list objects it points to) or shows
    is the [world] it transforms.

    Strings are byte strings holding UTF-8, as the files and the wire have
    them.  The static parts of the page (page configuration, title, the
    About text, headers and dividers) show nothing that depends on the
    state and are left out.  [st.cache_resource] and [st.cache_data] make
    the client and the loaders' results the same for every execution; an
    environment that is fixed for the session has the same effect. *)

From Stdlib Require Import Ascii DecimalString.
From stdpp Require Import gmap strings list.

Local Open Scope stdpp_scope.

(** ** Python strings *)

Module Py.

Definition LF : string := String "010"%char EmptyString.

(** Truth value of a [str]: only the empty string is falsy. *)
Definition truthy (s : string) : bool :=
  match s with
  | EmptyString => false
  | String _ _ => true
  end.

(** Truth value of an [Optional[str]] ([None] is falsy). *)
Definition truthy_opt (o : option string) : bool :=
  match o with
  | None => false
  | Some s => truthy s
  end.

(** [str(n)] for a non-negative [int]. *)
Definition str_of_nat (n : nat) : string :=
  NilZero.string_of_uint (Nat.to_uint n).

(** [s.endswith(suffix)]: [suffix] is [s] or ends a tail of [s]. *)
Fixpoint endswith (s suffix : string) : bool :=
  String.eqb s suffix ||
  match s with
  | EmptyString => false
  | String _ s' => endswith s' suffix
  end.

(** [s.count(sub)]: the number of non-overlapping occurrences of [sub] in
    [s], scanning from the left.  [skip] is the number of characters still
    covered by the occurrence just counted. *)
Fixpoint count_from (sub : string) (skip : nat) (s : string) : nat :=
  match s with
  | EmptyString => if String.prefix sub EmptyString then 1 else 0
  | String _ s' =>
      match skip with
      | S k => count_from sub k s'
      | O =>
          if String.prefix sub s
          then S (count_from sub (String.length sub - 1) s')
          else count_from sub 0 s'
      end
  end.

Definition count (s sub : string) : nat := count_from sub 0 s.

(** [acc += x] over the items of an iteration, in order. *)
Definition accumulate (acc : string) (xs : list string) : string :=
  fold_left String.append xs acc.

(** [base64.b64encode(data).decode()]. *)
Definition b64_alphabet : string :=
  "ABCDEFGHIJKLMNOPQRSTUVWXYZabcdefghijklmnopqrstuvwxyz0123456789+/".

Definition b64_digit (n : N) : ascii :=
  default "="%char (String.get (N.to_nat (n mod 64)) b64_alphabet).

Fixpoint b64encode (data : string) : string :=
  match data with
  | EmptyString => EmptyString
  | String a EmptyString =>
      let n := (N_of_ascii a * 65536)%N in
      String (b64_digit (n / 262144)) (String (b64_digit (n / 4096)) "==")
  | String a (String b EmptyString) =>
      let n := (N_of_ascii a * 65536 + N_of_ascii b * 256)%N in
      String (b64_digit (n / 262144)) (String (b64_digit (n / 4096))
        (String (b64_digit (n / 64)) "="))
  | String a (String b (String c rest)) =>
      let n := (N_of_ascii a * 65536 + N_of_ascii b * 256 + N_of_ascii c)%N in
      String (b64_digit (n / 262144)) (String (b64_digit (n / 4096))
        (String (b64_digit (n / 64)) (String (b64_digit n) (b64encode rest))))
  end.

End Py.

(** ** Data *)

(** A content item of an API message: the dicts [load_pdfs] builds and the
    text item the first turn appends. *)
Record source := Source {
  source_type : string;
  media_type : string;
  data : string;
}.

Record cache_control := CacheControl { cache_type : string }.

Inductive content_item : Type :=
| document (src : source) (cc : cache_control)   (* type: document *)
| text_item (t : string).                        (* type: text *)

(** An entry [{"role": ..., "content": ...}] of [st.session_state.messages]. *)
Record message := Message {
  role : string;
  content : string;
}.

(** Python list objects of content items live in a heap and are named by
    their address: [st.session_state.pdf_contents] and the first message's
    content are such lists, and [.copy()] / [.append()] act on the objects.
    (No second reference to the [messages] list is ever taken, so that list
    is kept by value.) *)
Abbreviation loc := positive.

(** The value under ["content"] of an entry of [api_messages]. *)
Inductive api_content : Type :=
| content_str (s : string)
| content_list (l : loc).

Record api_message := ApiMessage {
  api_role : string;
  api_body : api_content;
}.

(** The request as it goes out: list contents are read off the heap when
    the call is made. *)
Inductive wire_content : Type :=
| wire_str (s : string)
| wire_list (items : list content_item).

Record wire_message := WireMessage {
  wire_role : string;
  wire_body : wire_content;
}.

(** ** The outside *)

(** A directory entry.  For a protocol file [bytes] is the text [f.read()]
    returns, for a handout the raw content of the file. *)
Record file := File {
  name : string;
  bytes : string;
}.

Record environment := Environment {
  ANTHROPIC_API_KEY : option string;
  postop_handouts : option (list file);   (* [None]: the directory is absent *)
  protocols : option (list file);
}.

(** How the provider answers one streaming call: the text increments
    [stream.text_stream] yields, in order, after which the call either ends
    normally or raises an [Exception] with the given [str].  A call that
    fails before any text is the case [chunks = []]. *)
Record stream_outcome := StreamOutcome {
  chunks : list string;
  raised : option string;
}.

(** The widget values of one execution of the script. *)
Record interaction := Interaction {
  chat_input : option string;   (* what [st.chat_input] returns *)
  stream : stream_outcome;      (* the provider's answer, if it is called *)
  clear_clicked : bool;         (* [st.button("Clear Chat History")] *)
}.

(** What an execution shows or sends. *)
Inductive event : Type :=
| st_error (msg : string)
| st_warning (msg : string)
| chat_markdown (who body : string)          (* [st.markdown] in [st.chat_message(who)] *)
| placeholder_markdown (body : string)       (* [message_placeholder.markdown] *)
| sidebar_write (body : string)
| messages_stream (model : string) (max_tokens : nat)
                  (system : string) (msgs : list wire_message).

(** ** Loaders *)

(** [dir.glob("*" + suffix)] on a directory listing. *)
Definition glob_suffix (suffix : string) (listing : list file) : list file :=
  List.filter (λ f, Py.endswith (name f) suffix) listing.

Definition protocol_header (filename : string) : string :=
  Py.LF +:+ Py.LF +:+ "=== " +:+ filename +:+ " ===" +:+ Py.LF +:+ Py.LF.

Definition load_protocols (env : environment) : string :=
  match protocols env with
  | None => ""
  | Some listing =>
      match glob_suffix ".txt" listing with
      | [] => ""
      | protocol_files =>
          fold_left
            (λ protocols_text protocol_file,
               (protocols_text +:+ protocol_header (name protocol_file))
                 +:+ bytes protocol_file)
            protocol_files ""
      end
  end.

Definition pdf_document (pdf_data : string) : content_item :=
  document
    {| source_type := "base64";
       media_type := "application/pdf";
       data := Py.b64encode pdf_data |}
    {| cache_type := "ephemeral" |}.

(** ** The world and the script monad *)

(** [st.session_state] (each key present or not), the heap of list objects,
    and everything shown or sent so far. *)
Record world := World {
  heap : gmap loc (list content_item);
  messages : option (list message);
  pdf_contents : option loc;
  protocols_text : option string;
  log : list event;
}.

Definition fresh_world : world :=
  {| heap := ∅; messages := None; pdf_contents := None;
     protocols_text := None; log := [] |}.

(** Exceptions.  [StopException] and [RerunException] are Streamlit's
    script-control exceptions ([st.stop()], [st.rerun()]); they derive from
    [BaseException], so [except Exception] lets them through. *)
Inductive exn : Type :=
| Exception (msg : string)
| AttributeError (key : string)
| StopException
| RerunException.

Definition is_Exception (e : exn) : bool :=
  match e with
  | Exception _ | AttributeError _ => true
  | StopException | RerunException => false
  end.

(** [str(e)].  For a missing session key only the key is kept of
    Streamlit's message. *)
Definition exn_str (e : exn) : string :=
  match e with
  | Exception msg => msg
  | AttributeError key => key
  | StopException | RerunException => ""
  end.

Definition M (A : Type) : Type := world → (exn + A) * world.

Definition ret {A} (a : A) : M A := λ w, (inr a, w).

Definition bind {A B} (m : M A) (k : A → M B) : M B :=
  λ w, match m w with
       | (inl e, w') => (inl e, w')
       | (inr a, w') => k a w'
       end.

Definition raise {A} (e : exn) : M A := λ w, (inl e, w).

(** [try: body  except Exception as e: handler e]. *)
Definition try_except {A} (body : M A) (handler : exn → M A) : M A :=
  λ w, match body w with
       | (inl e, w') => if is_Exception e then handler e w' else (inl e, w')
       | (inr a, w') => (inr a, w')
       end.

Notation "'let*' x := m 'in' k" := (bind m (λ x, k))
  (at level 10, x name, m at level 100, k at level 200, only parsing).
Notation "m >> k" := (bind m (λ _, k))
  (at level 100, k at level 200, right associativity, only parsing).

Definition emit (e : event) : M unit :=
  λ w, (inr tt,
        {| heap := heap w; messages := messages w;
           pdf_contents := pdf_contents w;
           protocols_text := protocols_text w; log := log w ++ [e] |}).

(** Reading [st.session_state.<key>]. *)
Definition get_messages : M (list message) :=
  λ w, match messages w with
       | Some v => (inr v, w)
       | None => (inl (AttributeError "messages"), w)
       end.

Definition get_pdf_contents : M loc :=
  λ w, match pdf_contents w with
       | Some v => (inr v, w)
       | None => (inl (AttributeError "pdf_contents"), w)
       end.

Definition get_protocols_text : M string :=
  λ w, match protocols_text w with
       | Some v => (inr v, w)
       | None => (inl (AttributeError "protocols_text"), w)
       end.

(** Assigning [st.session_state.<key>]; for [messages] also the in-place
    [.append], the list having no other reference. *)
Definition set_messages (v : list message) : M unit :=
  λ w, (inr tt,
        {| heap := heap w; messages := Some v;
           pdf_contents := pdf_contents w;
           protocols_text := protocols_text w; log := log w |}).

Definition set_pdf_contents (l : loc) : M unit :=
  λ w, (inr tt,
        {| heap := heap w; messages := messages w; pdf_contents := Some l;
           protocols_text := protocols_text w; log := log w |}).

Definition set_protocols_text (v : string) : M unit :=
  λ w, (inr tt,
        {| heap := heap w; messages := messages w;
           pdf_contents := pdf_contents w;
           protocols_text := Some v; log := log w |}).

(** List objects.  A reference always names a live object; the total
    lookup reads the empty list at an address that holds none. *)
Definition list_read (l : loc) : M (list content_item) :=
  λ w, (inr (heap w !!! l), w).

(** A new list object holding [items]. *)
Definition list_new (items : list content_item) : M loc :=
  λ w, let l := fresh (dom (heap w)) in
       (inr l,
        {| heap := <[l := items]> (heap w); messages := messages w;
           pdf_contents := pdf_contents w;
           protocols_text := protocols_text w; log := log w |}).

(** [l.copy()]: a new object with the same items. *)
Definition list_copy (l : loc) : M loc :=
  let* items := list_read l in list_new items.

(** [l.append(x)]: the object at [l] is changed in place. *)
Definition list_append (l : loc) (x : content_item) : M unit :=
  λ w, (inr tt,
        {| heap := <[l := (heap w !!! l) ++ [x]]> (heap w);
           messages := messages w; pdf_contents := pdf_contents w;
           protocols_text := protocols_text w; log := log w |}).

(** [xs[i]]. *)
Definition index {A} (xs : list A) (i : nat) : M A :=
  match xs !! i with
  | Some x => ret x
  | None => raise (Exception "list index out of range")
  end.

(** [for x in xs: body x]. *)
Fixpoint for_each {A} (xs : list A) (body : A → M unit) : M unit :=
  match xs with
  | [] => ret tt
  | x :: rest => body x >> for_each rest body
  end.

(** ** The script *)

Definition get_client (env : environment) : M unit :=
  if Py.truthy_opt (ANTHROPIC_API_KEY env) then ret tt
  else
    emit (st_error "ANTHROPIC_API_KEY environment variable not set!") >>
    raise StopException.

(** [load_pdfs] returns a list object. *)
Definition load_pdfs (env : environment) : M loc :=
  match postop_handouts env with
  | None =>
      emit (st_error "Directory 'postop_handouts' not found!") >>
      list_new []
  | Some listing =>
      match glob_suffix ".pdf" listing with
      | [] =>
          emit (st_warning "No PDF files found in 'postop_handouts'") >>
          list_new []
      | pdf_files =>
          let* pdf_contents := list_new [] in
          for_each pdf_files
            (λ pdf_file, list_append pdf_contents (pdf_document (bytes pdf_file))) >>
          ret pdf_contents
      end
  end.

(** Lines 78-84. *)
Definition init_session_state (env : environment) : M unit :=
  (λ w, match messages w with
        | None => set_messages [] w
        | Some _ => ret tt w
        end) >>
  (λ w, match pdf_contents w with
        | None =>
            (let* pdfs := load_pdfs env in
             set_pdf_contents pdfs >>
             set_protocols_text (load_protocols env)) w
        | Some _ => ret tt w
        end).

(** Lines 87-89. *)
Definition display_history : M unit :=
  let* msgs := get_messages in
  for_each msgs (λ message, emit (chat_markdown (role message) (content message))).

Definition base_system_message : string :=
  "You are a helpful post-operative care assistant for Dr. Carofino's surgical practice. Your role is to help patients understand their post-operative instructions and answer questions about their recovery.

Guidelines:
- Answer questions based on the post-operative instruction handouts and protocols provided
- Be clear, compassionate, and encouraging
- If information isn't in the handouts, say so and recommend contacting the office
- Always prioritize patient safety - if something sounds urgent, recommend immediate contact with the office or emergency services
- Use simple, patient-friendly language
- When relevant, cite which specific handout or protocol you're referencing".

(** Lines 104-117. *)
Definition build_system_message : M string :=
  let system_message := base_system_message in
  let* protocols_text := get_protocols_text in
  if Py.truthy protocols_text
  then ret (system_message +:+
              (Py.LF +:+ Py.LF +:+ "Additional Protocols:" +:+ Py.LF +:+ protocols_text))
  else ret system_message.

(** Lines 120-139. *)
Definition build_api_messages : M (list api_message) :=
  let* msgs := get_messages in
  if (length msgs =? 1)%nat
  then
    let* pdf_contents := get_pdf_contents in
    let* first_message_content := list_copy pdf_contents in
    let* msgs := get_messages in
    let* msg0 := index msgs 0 in
    list_append first_message_content (text_item (content msg0)) >>
    ret [ {| api_role := "user"; api_body := content_list first_message_content |} ]
  else
    let* msgs := get_messages in
    ret (map (λ msg, {| api_role := role msg; api_body := content_str (content msg) |})
             msgs).

(** What the SDK puts on the wire for [messages=api_messages]. *)
Definition serialize (h : gmap loc (list content_item)) (m : api_message)
  : wire_message :=
  {| wire_role := api_role m;
     wire_body := match api_body m with
                  | content_str s => wire_str s
                  | content_list l => wire_list (h !!! l)
                  end |}.

Definition model_id : string := "claude-sonnet-4-20250514".

Definition continuation_marker : string := "▌".

(** [client.messages.stream(...)]: the request goes out. *)
Definition client_messages_stream (system : string)
    (api_messages : list api_message) : M unit :=
  λ w, emit (messages_stream model_id 2000 system
               (map (serialize (heap w)) api_messages)) w.

(** [for text in stream.text_stream: ...] (lines 150-152). *)
Fixpoint consume_text_stream (text_stream : list string) (full_response : string)
  : M string :=
  match text_stream with
  | [] => ret full_response
  | chunk :: rest =>
      let full_response := full_response +:+ chunk in
      emit (placeholder_markdown (full_response +:+ continuation_marker)) >>
      consume_text_stream rest full_response
  end.

(** Lines 142-160. *)
Definition call_and_commit (system_message : string)
    (api_messages : list api_message) (answer : stream_outcome) : M unit :=
  try_except
    (let full_response := "" in
     client_messages_stream system_message api_messages >>
     let* full_response := consume_text_stream (chunks answer) full_response in
     match raised answer with
     | Some msg => raise (Exception msg)
     | None => ret tt
     end >>
     emit (placeholder_markdown full_response) >>
     let* msgs := get_messages in
     set_messages (msgs ++ [ {| role := "assistant"; content := full_response |} ]))
    (λ e, emit (st_error ("Error: " +:+ exn_str e))).

(** Lines 92-160: the turn handler. *)
Definition chat_turn (inp : interaction) : M unit :=
  match chat_input inp with
  | None => ret tt
  | Some prompt =>
      if Py.truthy prompt
      then
        let* msgs := get_messages in
        set_messages (msgs ++ [ {| role := "user"; content := prompt |} ]) >>
        emit (chat_markdown "user" prompt) >>
        let* system_message := build_system_message in
        let* api_messages := build_api_messages in
        call_and_commit system_message api_messages (stream inp)
      else ret tt
  end.

(** Line 180. *)
Definition protocol_count (protocols_text : string) : nat :=
  Py.count protocols_text "===".

(** Lines 176-188 of the sidebar. *)
Definition sidebar (inp : interaction) : M unit :=
  let* pdf_contents := get_pdf_contents in
  let* pdfs := list_read pdf_contents in
  emit (sidebar_write ("📄 PDF Handouts: " +:+ Py.str_of_nat (length pdfs))) >>
  let* protocols_text := get_protocols_text in
  (if Py.truthy protocols_text
   then emit (sidebar_write
                ("📋 Protocol Files: " +:+
                 Py.str_of_nat (protocol_count protocols_text)))
   else ret tt) >>
  if clear_clicked inp
  then set_messages [] >> raise RerunException
  else ret tt.

Definition script (env : environment) (inp : interaction) : M unit :=
  get_client env >>
  init_session_state env >>
  display_history >>
  chat_turn inp >>
  sidebar inp.

(** An execution with no widget value: what [st.rerun()] triggers. *)
Definition idle : interaction :=
  {| chat_input := None;
     stream := {| chunks := []; raised := None |};
     clear_clicked := false |}.

(** One interaction: the script runs, and runs again at once if it asked
    for a rerun.  Whatever ends the execution, the session keeps the state
    reached. *)
Definition script_run (env : environment) (inp : interaction) (w : world) : world :=
  match script env inp w with
  | (inl RerunException, w') => (script env idle w').2
  | (_, w') => w'
  end.

(** A session: the interactions in order, from the session state [w]. *)
Definition run_session (env : environment) (inps : list interaction) (w : world)
  : world :=
  fold_left (λ w inp, script_run env inp w) inps w.

(** ** Observables *)

(** The Transcript of a session state (empty before the first execution). *)
Definition transcript (w : world) : list message := default [] (messages w).

(** The payloads of the provider calls among some events, in order. *)
Definition requests (es : list event) : list (list wire_message) :=
  omap (λ e, match e with
             | messages_stream _ _ _ msgs => Some msgs
             | _ => None
             end) es.

Definition is_document (c : content_item) : bool :=
  match c with
  | document _ _ => true
  | text_item _ => false
  end.

(** The document attachments a payload carries, over all its messages. *)
Definition attachments (payload : list wire_message) : list content_item :=
  flat_map (λ m, match wire_body m with
                 | wire_str _ => []
                 | wire_list items => List.filter is_document items
                 end) payload.

(** One plain role-and-text message per Turn. *)
Definition plain (t : message) : wire_message :=
  {| wire_role := role t; wire_body := wire_str (content t) |}.

(** Roles alternate, the first one being [expected]. *)
Fixpoint alternates (expected other : string) (ts : list message) : bool :=
  match ts with
  | [] => true
  | t :: rest => String.eqb (role t) expected && alternates other expected rest
  end.

Definition strictly_alternating (ts : list message) : bool :=
  alternates "user" "assistant" ts.

(** The weaker shape: every role is user or assistant, the first Turn (if
    any) is a user Turn and an assistant Turn never follows an assistant
    Turn.  [after_user] says whether the previous Turn was a user Turn. *)
Fixpoint answers_follow_users (after_user : bool) (ts : list message) : bool :=
  match ts with
  | [] => true
  | t :: rest =>
      if String.eqb (role t) "user" then answers_follow_users true rest
      else String.eqb (role t) "assistant" && after_user
           && answers_follow_users false rest
  end.

Definition last_role (ts : list message) : option string :=
  role <$> last ts.

(** ** Notions used in the statements and their proofs *)

(** What the placeholder shows while the stream is consumed. *)
Fixpoint stream_frames (full_response : string) (text_stream : list string)
  : list event :=
  match text_stream with
  | [] => []
  | chunk :: rest =>
      placeholder_markdown ((full_response +:+ chunk) +:+ continuation_marker)
        :: stream_frames (full_response +:+ chunk) rest
  end.

(** The document list [load_pdfs] builds, and what it reports. *)
Definition handouts (env : environment) : list content_item :=
  match postop_handouts env with
  | None => []
  | Some listing =>
      map (λ f, pdf_document (bytes f)) (glob_suffix ".pdf" listing)
  end.

Definition load_pdfs_events (env : environment) : list event :=
  match postop_handouts env with
  | None => [st_error "Directory 'postop_handouts' not found!"]
  | Some listing =>
      match glob_suffix ".pdf" listing with
      | [] => [st_warning "No PDF files found in 'postop_handouts'"]
      | _ :: _ => []
      end
  end.

(** The instruction block sent for a protocol text [t]. *)
Definition system_message_of (t : string) : string :=
  if Py.truthy t
  then base_system_message +:+
         (Py.LF +:+ Py.LF +:+ "Additional Protocols:" +:+ Py.LF +:+ t)
  else base_system_message.

(** The prompt a run acts on: the chat input, when it is truthy. *)
Definition submitted (inp : interaction) : option string :=
  match chat_input inp with
  | Some prompt => if Py.truthy prompt then Some prompt else None
  | None => None
  end.

Definition user_turn (prompt : string) : message :=
  {| role := "user"; content := prompt |}.

Definition assistant_turn (full_response : string) : message :=
  {| role := "assistant"; content := full_response |}.

(** The Turns a call adds after the user Turn. *)
Definition reply (answer : stream_outcome) : list message :=
  match raised answer with
  | None => [assistant_turn (Py.accumulate "" (chunks answer))]
  | Some _ => []
  end.

(** Heap, payload and events of a turn taken on Transcript [m] with the
    bundle at [l]. *)
Definition turn_heap (h : gmap loc (list content_item)) (l : loc)
    (m : list message) (prompt : string) : gmap loc (list content_item) :=
  match m with
  | [] => <[fresh (dom h) := (h !!! l) ++ [text_item prompt]]> h
  | _ :: _ => h
  end.

Definition turn_payload (h : gmap loc (list content_item)) (l : loc)
    (m : list message) (prompt : string) : list wire_message :=
  match m with
  | [] => [ {| wire_role := "user";
               wire_body := wire_list ((h !!! l) ++ [text_item prompt]) |} ]
  | _ :: _ => map plain (m ++ [user_turn prompt])
  end.

Definition outcome_event (answer : stream_outcome) : event :=
  match raised answer with
  | None => placeholder_markdown (Py.accumulate "" (chunks answer))
  | Some msg => st_error ("Error: " +:+ msg)
  end.

Definition turn_events (h : gmap loc (list content_item)) (l : loc) (t : string)
    (m : list message) (prompt : string) (answer : stream_outcome) : list event :=
  [chat_markdown "user" prompt;
   messages_stream model_id 2000 (system_message_of t) (turn_payload h l m prompt)]
  ++ stream_frames "" (chunks answer) ++ [outcome_event answer].

Definition sidebar_events (h : gmap loc (list content_item)) (l : loc)
    (t : string) : list event :=
  sidebar_write ("📄 PDF Handouts: " +:+ Py.str_of_nat (length (h !!! l)))
  :: (if Py.truthy t
      then [sidebar_write ("📋 Protocol Files: " +:+
                           Py.str_of_nat (protocol_count t))]
      else []).

(** Heap, new Turns and events of one interaction on an initialised
    session with Transcript [m], bundle at [l] and protocol text [t]. *)
Definition run_heap (inp : interaction) (h : gmap loc (list content_item))
    (l : loc) (m : list message) : gmap loc (list content_item) :=
  match submitted inp with
  | Some prompt => turn_heap h l m prompt
  | None => h
  end.

Definition run_turns (inp : interaction) : list message :=
  match submitted inp with
  | Some prompt => user_turn prompt :: reply (stream inp)
  | None => []
  end.

Definition history_events (m : list message) : list event :=
  map (λ t, chat_markdown (role t) (content t)) m.

Definition run_events (inp : interaction) (h : gmap loc (list content_item))
    (l : loc) (t : string) (m : list message) : list event :=
  history_events m
  ++ match submitted inp with
     | Some prompt => turn_events h l t m prompt (stream inp)
     | None => []
     end
  ++ sidebar_events (run_heap inp h l m) l t
  ++ (if clear_clicked inp then sidebar_events (run_heap inp h l m) l t else []).

Definition key_set (env : environment) : Prop :=
  Py.truthy_opt (ANTHROPIC_API_KEY env) = true.

(** What one protocol file contributes: the header line, then its text. *)
Definition protocol_entry (f : file) : string :=
  Py.LF +:+ Py.LF +:+ "=== " +:+ name f +:+ " ===" +:+ Py.LF +:+ Py.LF
    +:+ bytes f.

(** No [=] occurs in the string. *)
Fixpoint no_equals (s : string) : bool :=
  match s with
  | EmptyString => true
  | String c s' => negb (Ascii.eqb c "=") && no_equals s'
  end.

Definition marker_free (f : file) : bool :=
  no_equals (name f) && no_equals (bytes f).

(** The ReferenceBundle of a session state, once built: the document list
    [st.session_state.pdf_contents] points to, and the protocol text. *)
Definition bundle (w : world) : option (list content_item * string) :=
  match pdf_contents w, protocols_text w with
  | Some l, Some t =>
      match heap w !! l with
      | Some docs => Some (docs, t)
      | None => None
      end
  | _, _ => None
  end.

(** A session state between two executions: nothing loaded yet, or the
    bundle in place. *)
Definition well_formed (w : world) : Prop :=
  pdf_contents w = None ∨ is_Some (bundle w).

Definition carries_documents (payload : list wire_message) : bool :=
  match attachments payload with
  | [] => false
  | _ :: _ => true
  end.

(** The provider calls so far that carried document attachments. *)
Definition document_calls (w : world) : list (list wire_message) :=
  List.filter carries_documents (requests (log w)).

(** The provider is called in this run and the call raises. *)
Definition turn_fails (inp : interaction) : bool :=
  match submitted inp, raised (stream inp) with
  | Some _, Some _ => true
  | _, _ => false
  end.

(** What is left of the right to attach the documents: one call while the
    Transcript is empty, none afterwards. *)
Definition credit (w : world) : nat :=
  match transcript w with
  | [] => 1
  | _ :: _ => 0
  end.

(** Three handouts and the two protocol files of the scenario. *)
Definition demo_env : environment :=
  {| ANTHROPIC_API_KEY := Some "sk-demo";
     postop_handouts :=
       Some [ {| name := "rotator_cuff.pdf"; bytes := "%PDF-1.4 rotator cuff" |};
              {| name := "knee_scope.pdf"; bytes := "%PDF-1.4 knee" |};
              {| name := "notes.docx"; bytes := "not a handout" |};
              {| name := "carpal_tunnel.pdf"; bytes := "%PDF-1.4 carpal tunnel" |} ];
     protocols :=
       Some [ {| name := "wound_care.txt"; bytes := "Keep the incision dry." |};
              {| name := "pt_schedule.txt"; bytes := "Week 1: pendulum exercises." |} ] |}.

Definition asks (prompt : string) (text_stream : list string) : interaction :=
  {| chat_input := Some prompt;
     stream := {| chunks := text_stream; raised := None |};
     clear_clicked := false |}.

Definition asks_and_fails (prompt : string) (text_stream : list string)
    (err : string) : interaction :=
  {| chat_input := Some prompt;
     stream := {| chunks := text_stream; raised := Some err |};
     clear_clicked := false |}.

Definition clears : interaction :=
  {| chat_input := None;
     stream := {| chunks := []; raised := None |};
     clear_clicked := true |}.

(** The session state after the page has been opened. *)
Definition opened : world := script_run demo_env idle fresh_world.

(** ASCII whitespace only (the empty string included). *)
Fixpoint whitespace_only (s : string) : bool :=
  match s with
  | EmptyString => true
  | String c s' => Ascii.is_space c && whitespace_only s'
  end.

(** Model, token limit and instruction block of the provider calls among
    some events, in order. *)
Definition call_settings (es : list event) : list (string * nat * string) :=
  omap (λ e, match e with
             | messages_stream model max_tokens system _ =>
                 Some (model, max_tokens, system)
             | _ => None
             end) es.

(** The run hands a prompt to the turn handler. *)
Definition submits (inp : interaction) : bool :=
  match submitted inp with
  | Some _ => true
  | None => false
  end.

(** The files [load_pdfs] reads, in listing order. *)
Definition pdf_files (env : environment) : list file :=
  glob_suffix ".pdf" (default [] (postop_handouts env)).

(** The session has nothing loaded yet, or holds the bundle read from
    [env]. *)
Definition loaded_from (env : environment) (w : world) : Prop :=
  pdf_contents w = None
  ∨ bundle w = Some (handouts env, load_protocols env).

(** Position of a character in the base64 alphabet, counted from [i]; [64]
    past the alphabet's end marks a character that is not a digit. *)
Fixpoint b64_index_from (i : N) (alphabet : string) (c : ascii) : N :=
  match alphabet with
  | EmptyString => 64
  | String d rest =>
      if Ascii.eqb c d then i else b64_index_from (N.succ i) rest c
  end.

Definition b64_index (c : ascii) : N := b64_index_from 0 Py.b64_alphabet c.

(** ** Closed forms of the components *)

Arguments base_system_message : simpl never.
Arguments continuation_marker : simpl never.
Arguments model_id : simpl never.
Arguments Py.LF : simpl never.

Section loops.

Context {A : Type}.

Lemma for_each_emit (f : A → event) (xs : list A) h ms pc pt :
  ∀ lg, for_each xs (λ x, emit (f x)) (World h ms pc pt lg)
        = (inr tt, World h ms pc pt (lg ++ map f xs)).
Proof.
  induction xs as [|x xs IH]; intros lg; simpl.
  - by rewrite app_nil_r.
  - unfold bind, emit; simpl. rewrite IH. by rewrite <- app_assoc.
Qed.

Lemma for_each_list_append (f : A → content_item) (xs : list A) l ms pc pt lg :
  ∀ h items,
    h !! l = Some items →
    for_each xs (λ x, list_append l (f x)) (World h ms pc pt lg)
    = (inr tt, World (<[l := items ++ map f xs]> h) ms pc pt lg).
Proof.
  induction xs as [|x xs IH]; intros h items Hl; simpl.
  - rewrite app_nil_r. by rewrite insert_id.
  - unfold bind, list_append; simpl.
    rewrite (lookup_total_correct _ _ _ Hl).
    rewrite (IH _ (items ++ [f x])); [|by rewrite lookup_insert_eq].
    by rewrite insert_insert_eq, <- app_assoc.
Qed.

End loops.

Lemma consume_text_stream_spec (cs : list string) h ms pc pt :
  ∀ acc lg,
    consume_text_stream cs acc (World h ms pc pt lg)
    = (inr (Py.accumulate acc cs),
       World h ms pc pt (lg ++ stream_frames acc cs)).
Proof.
  induction cs as [|c cs IH]; intros acc lg; simpl.
  - by rewrite app_nil_r.
  - unfold bind, emit; simpl. rewrite IH. by rewrite <- app_assoc.
Qed.

Lemma load_pdfs_spec env h ms pc pt lg :
  load_pdfs env (World h ms pc pt lg)
  = (inr (fresh (dom h)),
     World (<[fresh (dom h) := handouts env]> h) ms pc pt
           (lg ++ load_pdfs_events env)).
Proof.
  unfold load_pdfs, handouts, load_pdfs_events.
  destruct (postop_handouts env) as [listing|]; [|done].
  destruct (glob_suffix ".pdf" listing) as [|f fs] eqn:Hglob; [done|].
  unfold bind at 1. unfold list_new at 1. simpl heap.
  unfold bind at 1.
  rewrite (for_each_list_append _ _ _ _ _ _ _ _ []); [|by rewrite lookup_insert_eq].
  unfold ret. by rewrite insert_insert_eq, app_nil_r.
Qed.

(** The session state after lines 78-84. *)
Lemma init_unloaded env h ms pt lg :
  init_session_state env (World h ms None pt lg)
  = (inr tt,
     World (<[fresh (dom h) := handouts env]> h) (Some (default [] ms))
           (Some (fresh (dom h))) (Some (load_protocols env))
           (lg ++ load_pdfs_events env)).
Proof.
  unfold init_session_state, bind.
  destruct ms as [m|]; simpl; by rewrite load_pdfs_spec.
Qed.

Lemma init_loaded env h ms l pt lg :
  init_session_state env (World h ms (Some l) pt lg)
  = (inr tt, World h (Some (default [] ms)) (Some l) pt lg).
Proof. unfold init_session_state, bind. by destruct ms. Qed.

Lemma display_history_spec h m pc pt lg :
  display_history (World h (Some m) pc pt lg)
  = (inr tt,
     World h (Some m) pc pt
           (lg ++ map (λ t, chat_markdown (role t) (content t)) m)).
Proof. unfold display_history, bind; simpl. apply for_each_emit. Qed.

Lemma build_system_message_spec h ms pc t lg :
  build_system_message (World h ms pc (Some t) lg)
  = (inr (system_message_of t), World h ms pc (Some t) lg).
Proof.
  unfold build_system_message, system_message_of, bind; simpl.
  by destruct (Py.truthy t).
Qed.

Lemma length_snoc_eqb_1 {A} (m : list A) (x : A) :
  (length (m ++ [x]) =? 1)%nat = match m with [] => true | _ :: _ => false end.
Proof.
  destruct m as [|y m]; [done|]. simpl.
  rewrite length_app, Nat.add_1_r. done.
Qed.

Lemma build_api_messages_first h l pt lg t0 :
  build_api_messages (World h (Some [t0]) (Some l) pt lg)
  = (inr [ {| api_role := "user";
              api_body := content_list (fresh (dom h)) |} ],
     World (<[fresh (dom h) := (h !!! l) ++ [text_item (content t0)]]> h)
           (Some [t0]) (Some l) pt lg).
Proof.
  unfold build_api_messages, bind, list_copy, bind, list_read, list_new,
    list_append, get_messages, get_pdf_contents, index, ret; simpl.
  by rewrite lookup_total_insert_eq, insert_insert_eq.
Qed.

Lemma build_api_messages_later h m pc pt lg :
  length m ≠ 1 →
  build_api_messages (World h (Some m) pc pt lg)
  = (inr (map (λ msg, {| api_role := role msg;
                         api_body := content_str (content msg) |}) m),
     World h (Some m) pc pt lg).
Proof.
  intros Hlen. unfold build_api_messages, bind, get_messages, ret; simpl.
  by destruct (Nat.eqb_spec (length m) 1).
Qed.

Lemma serialize_plain h (m : list message) :
  map (serialize h)
      (map (λ msg, {| api_role := role msg;
                      api_body := content_str (content msg) |}) m)
  = map plain m.
Proof. rewrite map_map. done. Qed.

Lemma call_and_commit_spec sys api answer h m pc pt lg :
  call_and_commit sys api answer (World h (Some m) pc pt lg)
  = (inr tt,
     World h (Some (m ++ reply answer)) pc pt
           (lg ++ [messages_stream model_id 2000 sys (map (serialize h) api)]
               ++ stream_frames "" (chunks answer) ++ [outcome_event answer])).
Proof.
  unfold call_and_commit, try_except, bind, client_messages_stream, emit; simpl.
  rewrite consume_text_stream_spec.
  unfold reply, outcome_event.
  destruct (raised answer) as [msg|]; simpl.
  - rewrite app_nil_r. by rewrite <- !app_assoc.
  - by rewrite <- !app_assoc.
Qed.

Lemma chat_turn_skip inp w :
  submitted inp = None → chat_turn inp w = (inr tt, w).
Proof.
  unfold submitted, chat_turn.
  destruct (chat_input inp) as [p|]; [|done].
  by destruct (Py.truthy p).
Qed.

Lemma chat_turn_spec inp prompt h m l t lg :
  submitted inp = Some prompt →
  chat_turn inp (World h (Some m) (Some l) (Some t) lg)
  = (inr tt,
     World (turn_heap h l m prompt)
           (Some ((m ++ [user_turn prompt]) ++ reply (stream inp)))
           (Some l) (Some t)
           (lg ++ turn_events h l t m prompt (stream inp))).
Proof.
  unfold submitted, chat_turn.
  destruct (chat_input inp) as [p|]; [|done].
  destruct (Py.truthy p) eqn:Hp; [|done].
  intros [= ->].
  unfold bind at 1. unfold get_messages at 1. simpl messages.
  unfold bind at 1. unfold set_messages at 1. simpl.
  unfold bind at 1. unfold emit at 1. simpl.
  unfold bind at 1. rewrite build_system_message_spec.
  unfold bind at 1.
  destruct m as [|t0 m'].
  - simpl app at 1. rewrite build_api_messages_first.
    rewrite call_and_commit_spec. unfold turn_events, turn_heap, turn_payload.
    unfold serialize. simpl. rewrite lookup_total_insert_eq.
    by rewrite <- !app_assoc.
  - rewrite build_api_messages_later.
    2:{ simpl. rewrite length_app. simpl. lia. }
    rewrite call_and_commit_spec. unfold turn_events, turn_heap, turn_payload.
    rewrite serialize_plain.
    by rewrite <- !app_assoc.
Qed.

Lemma sidebar_spec inp h ms l t lg :
  sidebar inp (World h ms (Some l) (Some t) lg)
  = if clear_clicked inp
    then (inl RerunException,
          World h (Some []) (Some l) (Some t) (lg ++ sidebar_events h l t))
    else (inr tt, World h ms (Some l) (Some t) (lg ++ sidebar_events h l t)).
Proof.
  unfold sidebar, sidebar_events, bind, get_pdf_contents, list_read,
    get_protocols_text, emit, set_messages, raise, ret; simpl.
  destruct (Py.truthy t), (clear_clicked inp); simpl;
    by rewrite <- ?app_assoc.
Qed.

Lemma script_spec env inp h ms l t lg :
  key_set env →
  script env inp (World h ms (Some l) (Some t) lg)
  = (if clear_clicked inp then inl RerunException else inr tt,
     World (run_heap inp h l (default [] ms))
           (Some (if clear_clicked inp then []
                  else default [] ms ++ run_turns inp))
           (Some l) (Some t)
           (lg ++ history_events (default [] ms)
               ++ match submitted inp with
                  | Some prompt =>
                      turn_events h l t (default [] ms) prompt (stream inp)
                  | None => []
                  end
               ++ sidebar_events (run_heap inp h l (default [] ms)) l t)).
Proof.
  intros Hkey. unfold script, get_client. rewrite Hkey.
  unfold bind at 1, ret at 1.
  unfold bind at 1. rewrite init_loaded.
  unfold bind at 1. rewrite display_history_spec.
  unfold bind at 1. unfold run_heap, run_turns.
  destruct (submitted inp) as [prompt|] eqn:Hsub.
  - rewrite (chat_turn_spec _ _ _ _ _ _ _ Hsub). rewrite sidebar_spec.
    destruct (clear_clicked inp); by rewrite <- ?app_assoc.
  - rewrite (chat_turn_skip _ _ Hsub). rewrite sidebar_spec.
    destruct (clear_clicked inp); rewrite ?app_nil_r, <- ?app_assoc; done.
Qed.

Lemma script_run_spec env inp h ms l t lg :
  key_set env →
  script_run env inp (World h ms (Some l) (Some t) lg)
  = World (run_heap inp h l (default [] ms))
          (Some (if clear_clicked inp then []
                 else default [] ms ++ run_turns inp))
          (Some l) (Some t)
          (lg ++ run_events inp h l t (default [] ms)).
Proof.
  intros Hkey. unfold script_run. rewrite script_spec by done.
  unfold run_events.
  destruct (clear_clicked inp) eqn:Hclear.
  - rewrite script_spec by done. simpl.
    by rewrite <- !app_assoc.
  - by rewrite app_nil_r.
Qed.

(** The first execution of a session loads the bundle and then goes on as
    on an initialised session. *)
Lemma script_run_unloaded env inp h ms pt lg :
  key_set env →
  script_run env inp (World h ms None pt lg)
  = script_run env inp
      (World (<[fresh (dom h) := handouts env]> h) (Some (default [] ms))
             (Some (fresh (dom h))) (Some (load_protocols env))
             (lg ++ load_pdfs_events env)).
Proof.
  intros Hkey.
  assert (∀ w, script env inp w
               = (init_session_state env >>
                  display_history >> chat_turn inp >> sidebar inp) w) as Hscript.
  { intros w. unfold script, get_client. by rewrite Hkey. }
  assert (∀ k : unit → M unit,
            bind (init_session_state env) k (World h ms None pt lg)
            = bind (init_session_state env) k
                (World (<[fresh (dom h) := handouts env]> h)
                       (Some (default [] ms)) (Some (fresh (dom h)))
                       (Some (load_protocols env))
                       (lg ++ load_pdfs_events env))) as Hinit.
  { intros k. unfold bind. by rewrite init_unloaded, init_loaded. }
  unfold script_run. by rewrite !Hscript, Hinit.
Qed.

(** Without the credential the script stops before it touches the session. *)
Lemma script_run_no_key env inp h ms pc pt lg :
  ¬ key_set env →
  script_run env inp (World h ms pc pt lg)
  = World h ms pc pt
          (lg ++ [st_error "ANTHROPIC_API_KEY environment variable not set!"]).
Proof.
  intros Hkey. unfold script_run, script, get_client.
  unfold key_set in Hkey. destruct (Py.truthy_opt _); [done|].
  done.
Qed.

(** ** Strings *)

Section strings.

Implicit Types s t u : string.

Lemma append_nil_l t : "" +:+ t = t.
Proof. reflexivity. Qed.

Lemma append_cons c s t : String c s +:+ t = String c (s +:+ t).
Proof. reflexivity. Qed.

Lemma append_nil_r s : s +:+ "" = s.
Proof.
  induction s as [|c s IH]; [done|]. by rewrite append_cons, IH.
Qed.

Lemma append_assoc s t u : (s +:+ t) +:+ u = s +:+ (t +:+ u).
Proof.
  induction s as [|c s IH]; [done|]. by rewrite !append_cons, IH.
Qed.

Lemma endswith_iff s suffix :
  Py.endswith s suffix = true ↔ ∃ stem, s = stem +:+ suffix.
Proof.
  induction s as [|c s IH].
  - change (Py.endswith "" suffix) with (String.eqb "" suffix || false).
    rewrite orb_false_r, String.eqb_eq. split.
    + intros <-. by exists "".
    + intros [[|d stem] Hs]; [done|discriminate].
  - change (Py.endswith (String c s) suffix)
      with (String.eqb (String c s) suffix || Py.endswith s suffix).
    rewrite orb_true_iff, String.eqb_eq, IH. split.
    + intros [<-|[stem ->]]; [by exists ""|by exists (String c stem)].
    + intros [[|d stem] Hs]; [by left|].
      rewrite append_cons in Hs. injection Hs as -> ->. right. by exists stem.
Qed.

(** [acc += x] in a loop builds [acc] followed by the items in order. *)
Lemma accumulate_concat (xs : list string) :
  ∀ acc, Py.accumulate acc xs = acc +:+ String.concat "" xs.
Proof.
  unfold Py.accumulate.
  induction xs as [|x xs IH]; intros acc; simpl.
  - by rewrite append_nil_r.
  - rewrite IH. destruct xs as [|y xs].
    + simpl. by rewrite append_nil_r.
    + by rewrite append_assoc.
Qed.

End strings.

(** ** The protocol loader *)

Section protocols.

Lemma protocols_loop (files : list file) :
  ∀ acc,
    fold_left
      (λ protocols_text protocol_file,
         (protocols_text +:+ protocol_header (name protocol_file))
           +:+ bytes protocol_file)
      files acc
    = acc +:+ String.concat "" (map protocol_entry files).
Proof.
  induction files as [|f files IH]; intros acc; simpl.
  - by rewrite append_nil_r.
  - rewrite IH. unfold protocol_header, protocol_entry.
    destruct files as [|g files]; simpl.
    + by rewrite append_nil_r, !append_assoc.
    + by rewrite append_nil_l, !append_assoc.
Qed.

Lemma elem_of_glob_suffix suffix listing f :
  f ∈ glob_suffix suffix listing
  ↔ f ∈ listing ∧ ∃ stem, name f = stem +:+ suffix.
Proof.
  unfold glob_suffix.
  rewrite !list_elem_of_In, filter_In, endswith_iff. done.
Qed.

Lemma load_protocols_concat env listing :
  protocols env = Some listing →
  load_protocols env
  = String.concat "" (map protocol_entry (glob_suffix ".txt" listing)).
Proof.
  intros Hdir. unfold load_protocols. rewrite Hdir.
  destruct (glob_suffix ".txt" listing) as [|f files]; [done|].
  by rewrite protocols_loop.
Qed.

(** C5: the protocol loader returns the empty string when the protocols
    directory is absent or holds no file matching [*.txt]; otherwise it
    returns, for the matching files in listing order, the concatenation of
    the header line (two line feeds, [=== <filename> ===], two line feeds)
    followed by the file's content.  The matching files are the entries of
    the listing whose name ends in [.txt], in the order of the listing. *)
Theorem load_protocols_returns (env : environment) :
  match protocols env with
  | None => load_protocols env = ""
  | Some listing =>
      (glob_suffix ".txt" listing = [] → load_protocols env = "")
      ∧ load_protocols env
        = String.concat ""
            (map (λ f, Py.LF +:+ Py.LF +:+ "=== " +:+ name f +:+ " ==="
                         +:+ Py.LF +:+ Py.LF +:+ bytes f)
                 (glob_suffix ".txt" listing))
      ∧ glob_suffix ".txt" listing
        = List.filter (λ f, Py.endswith (name f) ".txt") listing
      ∧ ∀ f, Py.endswith (name f) ".txt" = true
             ↔ ∃ stem, name f = stem +:+ ".txt"
  end.
Proof.
  destruct (protocols env) as [listing|] eqn:Hdir.
  - split; [intros Hnone; unfold load_protocols; by rewrite Hdir, Hnone|].
    split; [by apply load_protocols_concat|].
    split; [done|]. intros f. apply endswith_iff.
  - unfold load_protocols. by rewrite Hdir.
Qed.

End protocols.

(** ** The sidebar's protocol count *)

Section protocol_count.

Lemma count_from_other c s :
  c ≠ "="%char →
  Py.count_from "===" 0 (String c s) = Py.count_from "===" 0 s.
Proof.
  intros Hc.
  change (Py.count_from "===" 0 (String c s))
    with (if (if ascii_dec "=" c then String.prefix "==" s else false)
          then S (Py.count_from "===" 2 s)
          else Py.count_from "===" 0 s).
  destruct (ascii_dec "=" c) as [Heq|_]; [|done].
  by destruct Hc.
Qed.

Lemma count_from_marker s :
  Py.count_from "===" 0 (String "=" (String "=" (String "=" s)))
  = S (Py.count_from "===" 0 s).
Proof. by destruct s. Qed.

Lemma count_from_no_equals a rest :
  no_equals a = true →
  Py.count_from "===" 0 (a +:+ rest) = Py.count_from "===" 0 rest.
Proof.
  induction a as [|c a IH]; [done|].
  simpl no_equals. rewrite andb_true_iff, negb_true_iff, Ascii.eqb_neq.
  intros [Hc Ha]. rewrite append_cons, count_from_other by done. auto.
Qed.

Lemma count_from_entry f rest :
  marker_free f = true →
  Py.count_from "===" 0 (protocol_entry f +:+ rest)
  = 2 + Py.count_from "===" 0 rest.
Proof.
  unfold marker_free. rewrite andb_true_iff. intros [Hname Hbytes].
  unfold protocol_entry, Py.LF.
  rewrite !append_assoc, !append_cons, !append_nil_l.
  rewrite !count_from_other by done.
  rewrite count_from_marker, count_from_other by done.
  rewrite count_from_no_equals by done.
  rewrite count_from_other by done.
  rewrite count_from_marker, !count_from_other by done.
  by rewrite count_from_no_equals.
Qed.

Lemma count_from_entries (files : list file) :
  forallb marker_free files = true →
  Py.count_from "===" 0 (String.concat "" (map protocol_entry files))
  = 2 * length files.
Proof.
  induction files as [|f files IH]; [done|].
  simpl forallb. rewrite andb_true_iff. intros [Hf Hfiles].
  destruct files as [|g files].
  - change (String.concat "" (map protocol_entry [f]))
      with (protocol_entry f).
    rewrite <- (append_nil_r (protocol_entry f)).
    by rewrite count_from_entry.
  - change (String.concat "" (map protocol_entry (f :: g :: files)))
      with (protocol_entry f
              +:+ String.concat "" (map protocol_entry (g :: files))).
    rewrite count_from_entry by done.
    rewrite IH by done. simpl length. lia.
Qed.

End protocol_count.

(** ** Properties of the components *)

Section components.

Lemma last_app_snoc {A} (l1 l2 : list A) (x : A) :
  last (l1 ++ l2 ++ [x]) = Some x.
Proof. by rewrite app_assoc, last_snoc. Qed.

Lemma attachments_plain (ts : list message) : attachments (map plain ts) = [].
Proof. induction ts as [|t ts IH]; [done|]. simpl. exact IH. Qed.

Lemma submitted_Some inp prompt :
  chat_input inp = Some prompt → Py.truthy prompt = true →
  submitted inp = Some prompt.
Proof. unfold submitted. by intros -> ->. Qed.

(** C8 (the code departs from the claim): the count the sidebar derives by
    counting [===] in the protocol text is twice the number of protocol
    files loaded, each header line holding the marker twice, whenever no
    file name or file text contains [=] itself.  With [wound_care.txt] and
    [pt_schedule.txt] the sidebar shows 4, not 2. *)
Theorem protocol_count_is_twice_the_files (env : environment) (listing : list file) :
  protocols env = Some listing →
  forallb marker_free (glob_suffix ".txt" listing) = true →
  protocol_count (load_protocols env)
  = 2 * length (glob_suffix ".txt" listing).
Proof.
  intros Hdir Hfree.
  rewrite (load_protocols_concat _ _ Hdir).
  unfold protocol_count, Py.count.
  exact (count_from_entries _ Hfree).
Qed.

(** C1: the assembled payload carries the bundle's document list exactly
    when the Transcript has one Turn.  With one Turn the payload is a single
    user message whose content is the whole document list, in order,
    followed by one text item holding that Turn's text; with any other
    number of Turns it is one plain role-and-text message per Turn and holds
    no document attachment. *)
Theorem payload_attaches_documents_iff_first_turn
    (h : gmap loc (list content_item)) (msgs : list message) (l : loc)
    (pt : option string) (lg : list event) :
  ∃ api_messages w',
    build_api_messages (World h (Some msgs) (Some l) pt lg)
    = (inr api_messages, w')
    ∧ (length msgs = 1 →
       ∃ turn,
         msgs = [turn]
         ∧ map (serialize (heap w')) api_messages
           = [ {| wire_role := "user";
                  wire_body :=
                    wire_list ((h !!! l) ++ [text_item (content turn)]) |} ])
    ∧ (length msgs ≠ 1 →
       map (serialize (heap w')) api_messages = map plain msgs
       ∧ attachments (map (serialize (heap w')) api_messages) = [])
    ∧ ((∃ m rest, m ∈ map (serialize (heap w')) api_messages
                  ∧ wire_body m = wire_list ((h !!! l) ++ rest))
       ↔ length msgs = 1).
Proof.
  destruct (decide (length msgs = 1)) as [Hone|Hmany].
  - destruct msgs as [|turn [|? ?]]; try discriminate.
    eexists _, _. split; [apply build_api_messages_first|].
    assert (map (serialize (<[fresh (dom h) := (h !!! l) ++ [text_item (content turn)]]> h))
                [ {| api_role := "user"; api_body := content_list (fresh (dom h)) |} ]
            = [ {| wire_role := "user";
                   wire_body := wire_list ((h !!! l) ++ [text_item (content turn)]) |} ])
      as Hwire.
    { unfold serialize. simpl. by rewrite lookup_total_insert_eq. }
    simpl heap. rewrite Hwire.
    split; [intros _; by exists turn|].
    split; [done|].
    split; [done|]. intros _.
    eexists _, [text_item (content turn)]. split; [by left|done].
  - eexists _, _. split; [by apply build_api_messages_later|].
    simpl heap. rewrite serialize_plain.
    split; [done|]. split; [intros _; split; [done|apply attachments_plain]|].
    split; [|done].
    intros (m & rest & Hm & Hbody).
    apply list_elem_of_fmap in Hm as (t & -> & _). discriminate.
Qed.

(** C4: when the streaming call succeeds, the assistant Turn appended to
    the Transcript holds exactly the increments the stream yielded,
    concatenated in order; the continuation marker shown while streaming is
    not part of it, and the final render shows the same text. *)
Theorem committed_text_is_concatenation
    (system_message : string) (api_messages : list api_message)
    (answer : stream_outcome) (h : gmap loc (list content_item))
    (m : list message) (pc : option loc) (pt : option string) (lg : list event) :
  raised answer = None →
  ∃ w',
    call_and_commit system_message api_messages answer
      (World h (Some m) pc pt lg) = (inr tt, w')
    ∧ messages w'
      = Some (m ++ [ {| role := "assistant";
                        content := String.concat "" (chunks answer) |} ])
    ∧ last (log w')
      = Some (placeholder_markdown (String.concat "" (chunks answer))).
Proof.
  intros Hok. eexists. split; [apply call_and_commit_spec|].
  unfold reply, outcome_event. rewrite Hok. simpl.
  rewrite accumulate_concat, append_nil_l.
  split; [done|].
  apply (last_app_snoc lg (_ :: _)).
Qed.

(** C3: when the provider call raises, before or during streaming, the
    turn handler returns normally with the Transcript holding the user Turn
    it appended and no assistant Turn, the last thing shown being the error
    message; the session state stays initialised, and the handler takes the
    next input on it. *)
Theorem failed_call_commits_no_assistant_turn
    (inp : interaction) (prompt err : string)
    (h : gmap loc (list content_item)) (m : list message) (l : loc)
    (t : string) (lg : list event) :
  chat_input inp = Some prompt →
  Py.truthy prompt = true →
  raised (stream inp) = Some err →
  ∃ w',
    chat_turn inp (World h (Some m) (Some l) (Some t) lg) = (inr tt, w')
    ∧ messages w' = Some (m ++ [ {| role := "user"; content := prompt |} ])
    ∧ last (log w') = Some (st_error ("Error: " +:+ err))
    ∧ pdf_contents w' = Some l
    ∧ protocols_text w' = Some t
    ∧ ∀ inp' prompt',
        chat_input inp' = Some prompt' →
        Py.truthy prompt' = true →
        ∃ rest,
          messages (chat_turn inp' w').2
          = Some (m ++ [ {| role := "user"; content := prompt |};
                         {| role := "user"; content := prompt' |} ] ++ rest).
Proof.
  intros Hin Htruthy Hraised.
  eexists. split; [apply chat_turn_spec; by apply submitted_Some|].
  unfold reply, turn_events, outcome_event. rewrite Hraised. simpl.
  rewrite app_nil_r.
  split; [done|].
  split.
  { apply (last_app_snoc lg (_ :: _ :: _)). }
  split; [done|]. split; [done|].
  intros inp' prompt' Hin' Htruthy'.
  rewrite (chat_turn_spec inp' prompt') by by apply submitted_Some.
  simpl. eexists. by rewrite <- !app_assoc.
Qed.

(** C7, as the code has it: an input that is absent or the empty string is
    ignored, the turn handler leaving the whole state as it is (no Turn, no
    payload, no provider call).  A non-empty string of whitespace is truthy
    and is handled like any other text. *)
Theorem empty_input_is_ignored (inp : interaction) (w : world) :
  chat_input inp = None ∨ chat_input inp = Some "" →
  chat_turn inp w = (inr tt, w).
Proof.
  intros [Hin|Hin]; apply chat_turn_skip; unfold submitted; by rewrite Hin.
Qed.

End components.

(** ** Sessions *)

Section sessions.

Variable env : environment.

Lemma requests_app es1 es2 : requests (es1 ++ es2) = requests es1 ++ requests es2.
Proof. apply omap_app. Qed.

Lemma requests_history m : requests (history_events m) = [].
Proof. induction m as [|t m IH]; [done|]. exact IH. Qed.

Lemma requests_stream_frames cs : ∀ acc, requests (stream_frames acc cs) = [].
Proof. induction cs as [|c cs IH]; intros acc; [done|]. apply IH. Qed.

Lemma requests_sidebar h l t : requests (sidebar_events h l t) = [].
Proof. unfold sidebar_events. by destruct (Py.truthy t). Qed.

Lemma requests_load_pdfs : requests (load_pdfs_events env) = [].
Proof.
  unfold load_pdfs_events.
  destruct (postop_handouts env) as [listing|]; [|done].
  by destruct (glob_suffix ".pdf" listing).
Qed.

Lemma requests_turn h l t m prompt answer :
  requests (turn_events h l t m prompt answer) = [turn_payload h l m prompt].
Proof.
  unfold turn_events. simpl. f_equal.
  rewrite requests_app, requests_stream_frames.
  unfold outcome_event. by destruct (raised answer).
Qed.

Lemma requests_run inp h l t m :
  requests (run_events inp h l t m)
  = match submitted inp with
    | Some prompt => [turn_payload h l m prompt]
    | None => []
    end.
Proof.
  unfold run_events.
  rewrite !requests_app, requests_history, requests_sidebar.
  assert (requests (if clear_clicked inp
                    then sidebar_events (run_heap inp h l m) l t else []) = [])
    as -> by (destruct (clear_clicked inp); [apply requests_sidebar|done]).
  rewrite app_nil_r. simpl.
  destruct (submitted inp); [apply requests_turn|done].
Qed.

Lemma run_heap_lookup inp h l m docs :
  h !! l = Some docs → run_heap inp h l m !! l = Some docs.
Proof.
  intros Hl. unfold run_heap, turn_heap.
  destruct (submitted inp) as [prompt|]; [|done].
  destruct m as [|t m]; [|done].
  rewrite lookup_insert_ne; [done|].
  intros Heq. pose proof (is_fresh (dom h)) as Hfresh.
  rewrite Heq in Hfresh. apply Hfresh, elem_of_dom. by rewrite Hl.
Qed.

(** One interaction on a session whose bundle is in place. *)
Lemma script_run_loaded inp w l docs t :
  key_set env →
  pdf_contents w = Some l → heap w !! l = Some docs →
  protocols_text w = Some t →
  bundle (script_run env inp w) = Some (docs, t)
  ∧ transcript (script_run env inp w)
    = (if clear_clicked inp then [] else transcript w ++ run_turns inp)
  ∧ requests (log (script_run env inp w))
    = requests (log w)
      ++ match submitted inp with
         | Some prompt => [turn_payload (heap w) l (transcript w) prompt]
         | None => []
         end.
Proof.
  intros Hkey Hpc Hl Hpt. destruct w as [h ms pc pt lg]. simpl in *. subst.
  rewrite script_run_spec by done.
  unfold bundle, transcript. simpl.
  rewrite (run_heap_lookup _ _ _ _ _ Hl).
  split; [done|]. split; [done|].
  by rewrite requests_app, requests_run.
Qed.

(** The first interaction of a session. *)
Lemma script_run_first inp w :
  key_set env →
  pdf_contents w = None →
  bundle (script_run env inp w) = Some (handouts env, load_protocols env)
  ∧ transcript (script_run env inp w)
    = (if clear_clicked inp then [] else transcript w ++ run_turns inp)
  ∧ ∃ h l,
      requests (log (script_run env inp w))
      = requests (log w)
        ++ match submitted inp with
           | Some prompt => [turn_payload h l (transcript w) prompt]
           | None => []
           end.
Proof.
  intros Hkey Hpc. destruct w as [h ms pc pt lg]. simpl in *. subst.
  rewrite script_run_unloaded by done.
  match goal with |- context [script_run env inp ?w0] =>
    destruct (script_run_loaded inp w0 (fresh (dom h)) (handouts env)
                (load_protocols env) Hkey eq_refl
                (lookup_insert_eq _ _ _) eq_refl)
      as (Hb & Ht & Hr)
  end.
  split; [done|]. split; [done|].
  eexists _, _. rewrite Hr. simpl log.
  by rewrite requests_app, requests_load_pdfs, app_nil_r.
Qed.

(** Every interaction, whatever the state it starts from. *)
Lemma script_run_step inp w :
  well_formed w →
  well_formed (script_run env inp w)
  ∧ (∀ b, bundle w = Some b → bundle (script_run env inp w) = Some b)
  ∧ if Py.truthy_opt (ANTHROPIC_API_KEY env)
    then
      is_Some (bundle (script_run env inp w))
      ∧ transcript (script_run env inp w)
        = (if clear_clicked inp then [] else transcript w ++ run_turns inp)
      ∧ ∃ h l,
          requests (log (script_run env inp w))
          = requests (log w)
            ++ match submitted inp with
               | Some prompt => [turn_payload h l (transcript w) prompt]
               | None => []
               end
    else
      transcript (script_run env inp w) = transcript w
      ∧ requests (log (script_run env inp w)) = requests (log w).
Proof.
  intros Hwf.
  destruct (Py.truthy_opt (ANTHROPIC_API_KEY env)) eqn:Hkey.
  - destruct (pdf_contents w) as [l|] eqn:Hpc.
    + destruct Hwf as [?|[[docs t] Hb]]; [congruence|].
      assert (heap w !! l = Some docs ∧ protocols_text w = Some t) as [Hl Hpt].
      { unfold bundle in Hb. rewrite Hpc in Hb.
        destruct (protocols_text w); [|done].
        destruct (heap w !! l); [|done]. by injection Hb as -> ->. }
      destruct (script_run_loaded inp w l docs t Hkey Hpc Hl Hpt)
        as (Hb' & Ht & Hr).
      split; [right; by rewrite Hb'|].
      split; [intros b; by rewrite Hb, Hb'|].
      split; [by rewrite Hb'|]. split; [done|]. by eexists _, _.
    + destruct (script_run_first inp w Hkey Hpc) as (Hb' & Ht & Hr).
      split; [right; by rewrite Hb'|].
      split; [intros b; unfold bundle; by rewrite Hpc|].
      split; [by rewrite Hb'|]. done.
  - assert (¬ key_set env) as Hno by (unfold key_set; by rewrite Hkey).
    destruct w as [h ms pc pt lg].
    rewrite script_run_no_key by done.
    split; [done|]. split; [done|]. split; [done|].
    simpl. by rewrite requests_app, app_nil_r.
Qed.

Lemma well_formed_fresh : well_formed fresh_world.
Proof. by left. Qed.

Lemma run_session_snoc inps inp w :
  run_session env (inps ++ [inp]) w
  = script_run env inp (run_session env inps w).
Proof. unfold run_session. by rewrite fold_left_app. Qed.

Lemma run_session_app inps1 inps2 w :
  run_session env (inps1 ++ inps2) w
  = run_session env inps2 (run_session env inps1 w).
Proof. unfold run_session. by rewrite fold_left_app. Qed.

Lemma run_session_well_formed inps :
  ∀ w, well_formed w → well_formed (run_session env inps w).
Proof.
  induction inps as [|inp inps IH]; intros w Hwf; [done|].
  simpl. apply IH. by apply script_run_step.
Qed.

Lemma run_session_bundle inps :
  ∀ w b, well_formed w → bundle w = Some b →
         bundle (run_session env inps w) = Some b.
Proof.
  induction inps as [|inp inps IH]; intros w b Hwf Hb; [done|].
  simpl. destruct (script_run_step inp w Hwf) as (Hwf' & Hb' & _).
  apply IH; auto.
Qed.

End sessions.

(** ** Role shapes *)

Section roles.

Lemma alternates_app a b (xs ys : list message) :
  alternates a b (xs ++ ys)
  = alternates a b xs
    && (if Nat.even (length xs) then alternates a b ys else alternates b a ys).
Proof.
  revert a b. induction xs as [|x xs IH]; intros a b; [done|].
  simpl app. simpl alternates. rewrite IH, <- andb_assoc. f_equal. f_equal.
  simpl length. rewrite Nat.even_succ, <- Nat.negb_even.
  by destruct (Nat.even (length xs)).
Qed.

(** An exchange that completes keeps a strictly alternating Transcript of
    even length strictly alternating and of even length. *)
Lemma exchange_keeps_alternation (ts : list message) prompt full_response :
  strictly_alternating ts = true → Nat.even (length ts) = true →
  strictly_alternating (ts ++ [user_turn prompt; assistant_turn full_response])
  = true
  ∧ Nat.even (length (ts ++ [user_turn prompt; assistant_turn full_response]))
    = true.
Proof.
  unfold strictly_alternating. intros Halt Heven.
  rewrite alternates_app, Halt, Heven, length_app.
  split; [done|].
  by rewrite Nat.even_add, Heven.
Qed.

Lemma answers_follow_users_turn (ts : list message) prompt answer :
  ∀ b, answers_follow_users b ts = true →
       answers_follow_users b (ts ++ user_turn prompt :: reply answer) = true.
Proof.
  induction ts as [|t ts IH]; intros b Hts.
  - unfold reply. by destruct (raised answer).
  - simpl in *. destruct (String.eqb (role t) "user"); [by apply IH|].
    apply andb_true_iff in Hts as [Hrole Hts]. rewrite Hrole. by apply IH.
Qed.

Lemma answers_follow_users_run (ts : list message) inp :
  answers_follow_users false ts = true →
  answers_follow_users false (ts ++ run_turns inp) = true.
Proof.
  unfold run_turns. destruct (submitted inp) as [prompt|].
  - apply answers_follow_users_turn.
  - by rewrite app_nil_r.
Qed.

Lemma last_role_run (ts : list message) prompt answer :
  last_role (ts ++ user_turn prompt :: reply answer)
  = Some (match raised answer with
          | None => "assistant"
          | Some _ => "user"
          end).
Proof.
  unfold last_role, reply. destruct (raised answer).
  - by rewrite last_snoc.
  - set (a := assistant_turn _).
    change (ts ++ [user_turn prompt; a]) with (ts ++ [user_turn prompt] ++ [a]).
    by rewrite last_app_snoc.
Qed.

End roles.

(** ** Properties of sessions *)

Section session_properties.

Variable env : environment.

Lemma run_session_answers_follow_users inps :
  ∀ w, well_formed w →
       answers_follow_users false (transcript w) = true →
       answers_follow_users false (transcript (run_session env inps w)) = true.
Proof.
  induction inps as [|inp inps IH]; intros w Hwf Hts; [done|].
  simpl. destruct (script_run_step env inp w Hwf) as (Hwf' & _ & Hstep).
  apply IH; [done|].
  destruct (Py.truthy_opt (ANTHROPIC_API_KEY env)).
  - destruct Hstep as (_ & -> & _).
    destruct (clear_clicked inp); [done|].
    by apply answers_follow_users_run.
  - destruct Hstep as [-> _]. done.
Qed.

Lemma run_session_alternates inps :
  ∀ w, well_formed w →
       forallb (λ inp, negb (turn_fails inp)) inps = true →
       strictly_alternating (transcript w) = true →
       Nat.even (length (transcript w)) = true →
       strictly_alternating (transcript (run_session env inps w)) = true.
Proof.
  induction inps as [|inp inps IH]; intros w Hwf Hok Halt Heven; [done|].
  simpl in Hok. apply andb_true_iff in Hok as [Hinp Hok].
  simpl. destruct (script_run_step env inp w Hwf) as (Hwf' & _ & Hstep).
  destruct (Py.truthy_opt (ANTHROPIC_API_KEY env)).
  - destruct Hstep as (_ & Hts & _).
    destruct (clear_clicked inp).
    { apply IH; try done; by rewrite Hts. }
    unfold run_turns, turn_fails, reply in *.
    destruct (submitted inp) as [prompt|].
    + destruct (raised (stream inp)); [done|].
      destruct (exchange_keeps_alternation (transcript w) prompt
                  (Py.accumulate "" (chunks (stream inp))) Halt Heven)
        as [Halt' Heven'].
      apply IH; try done; by rewrite Hts.
    + rewrite app_nil_r in Hts. apply IH; try done; by rewrite Hts.
  - destruct Hstep as [Hts _]. apply IH; try done; by rewrite Hts.
Qed.

(** C2, as the code has it: in every reachable Transcript the first Turn is
    a user Turn and an assistant Turn only ever follows a user Turn; the
    Transcript strictly alternates user, assistant, ... as long as no turn
    of the session has failed; and a turn leaves the last role assistant
    when it commits and user when the provider call fails.  After a failed
    turn the next user Turn follows a user Turn, so strict alternation is
    not an invariant of all reachable Transcripts. *)
Theorem transcript_role_shape (inps : list interaction) :
  answers_follow_users false (transcript (run_session env inps fresh_world))
  = true
  ∧ (forallb (λ inp, negb (turn_fails inp)) inps = true →
     strictly_alternating (transcript (run_session env inps fresh_world))
     = true)
  ∧ (∀ inp prompt,
       key_set env →
       chat_input inp = Some prompt → Py.truthy prompt = true →
       clear_clicked inp = false →
       last_role
         (transcript (script_run env inp (run_session env inps fresh_world)))
       = Some (match raised (stream inp) with
               | None => "assistant"
               | Some _ => "user"
               end)).
Proof.
  split; [by apply run_session_answers_follow_users; [left|]|].
  split; [intros Hok; by apply run_session_alternates; [left| | |]|].
  intros inp prompt Hkey Hin Htruthy Hclear.
  pose proof (run_session_well_formed env inps _ well_formed_fresh) as Hwf.
  destruct (script_run_step env inp _ Hwf) as (_ & _ & Hstep).
  rewrite Hkey in Hstep. destruct Hstep as (_ & -> & _).
  rewrite Hclear. unfold run_turns.
  rewrite (submitted_Some _ _ Hin Htruthy).
  apply last_role_run.
Qed.

(** C6: clear-history empties the Transcript and leaves the ReferenceBundle
    (document list and protocol text) as it was; an interaction that is not
    clear-history only ever extends the Transcript, every Turn it held
    staying in place.  (The button is on the page only when the script got
    past the credential check, hence [key_set].) *)
Theorem clear_history_resets_only_the_transcript
    (inps : list interaction) (inp : interaction) :
  (key_set env → clear_clicked inp = true →
   transcript (script_run env inp (run_session env inps fresh_world)) = []
   ∧ ∀ b, bundle (run_session env inps fresh_world) = Some b →
          bundle (script_run env inp (run_session env inps fresh_world))
          = Some b)
  ∧ (clear_clicked inp = false →
     transcript (run_session env inps fresh_world)
       `prefix_of`
     transcript (script_run env inp (run_session env inps fresh_world))).
Proof.
  pose proof (run_session_well_formed env inps _ well_formed_fresh) as Hwf.
  destruct (script_run_step env inp _ Hwf) as (_ & Hbundle & Hstep).
  split.
  - intros Hkey Hclear. rewrite Hkey in Hstep.
    destruct Hstep as (_ & -> & _). by rewrite Hclear.
  - intros Hclear. destruct (Py.truthy_opt (ANTHROPIC_API_KEY env)).
    + destruct Hstep as (_ & -> & _). rewrite Hclear. by apply prefix_app_r.
    + destruct Hstep as [-> _]. done.
Qed.

(** C9: once built, the ReferenceBundle of a session never changes,
    whatever interactions follow.  In particular the first-turn assembly
    appends the user's text item to a copy: the document list the session
    state points to is as before, and the extended list is another
    object. *)
Theorem bundle_is_never_mutated
    (inps1 inps2 : list interaction) (b : list content_item * string) :
  bundle (run_session env inps1 fresh_world) = Some b →
  bundle (run_session env (inps1 ++ inps2) fresh_world) = Some b
  ∧ ∀ w turn l docs,
      messages w = Some [turn] → pdf_contents w = Some l →
      heap w !! l = Some docs →
      heap (build_api_messages w).2 !! l = Some docs
      ∧ pdf_contents (build_api_messages w).2 = Some l
      ∧ protocols_text (build_api_messages w).2 = protocols_text w
      ∧ ∃ l', l' ≠ l
              ∧ heap (build_api_messages w).2 !! l'
                = Some (docs ++ [text_item (content turn)]).
Proof.
  intros Hb. split.
  - rewrite run_session_app. apply run_session_bundle; [|done].
    apply run_session_well_formed, well_formed_fresh.
  - intros [h ms pc pt lg] turn l docs Hms Hpc Hl. simpl in *. subst.
    rewrite build_api_messages_first. simpl.
    assert (fresh (dom h) ≠ l) as Hne.
    { intros Heq. pose proof (is_fresh (dom h)) as Hfresh.
      rewrite Heq in Hfresh. apply Hfresh, elem_of_dom. by rewrite Hl. }
    rewrite lookup_insert_ne by done.
    split; [done|]. split; [done|]. split; [done|].
    exists (fresh (dom h)). split; [done|].
    by rewrite lookup_insert_eq, (lookup_total_correct _ _ _ Hl).
Qed.

End session_properties.

(** ** Document attachments over a session *)

Section attachments_over_a_session.

Variable env : environment.

Lemma carries_documents_later h l t m prompt :
  carries_documents (turn_payload h l (t :: m) prompt) = false.
Proof.
  unfold carries_documents, turn_payload. by rewrite attachments_plain.
Qed.

(** The calls with attachments one interaction adds. *)
Lemma document_calls_step inp w :
  well_formed w →
  ∃ extra,
    document_calls (script_run env inp w) = document_calls w ++ extra
    ∧ length extra ≤ 1
    ∧ (extra ≠ [] →
       transcript w = [] ∧ ∃ prompt, submitted inp = Some prompt)
    ∧ length extra + credit (script_run env inp w)
      ≤ credit w + (if clear_clicked inp then 1 else 0)
    ∧ (clear_clicked inp = false → transcript w ≠ [] →
       transcript (script_run env inp w) ≠ []).
Proof.
  intros Hwf. destruct (script_run_step env inp w Hwf) as (_ & _ & Hstep).
  unfold document_calls, credit.
  destruct (Py.truthy_opt (ANTHROPIC_API_KEY env)).
  - destruct Hstep as (_ & -> & h & l & ->).
    rewrite List.filter_app. eexists. split; [done|].
    unfold run_turns.
    destruct (submitted inp) as [prompt|]; simpl.
    + destruct (transcript w) as [|t m] eqn:Hts.
      * destruct (carries_documents _); simpl;
          (split; [lia|]); (split; [by eauto|]);
          (split; [destruct (clear_clicked inp); simpl; lia|]); done.
      * rewrite carries_documents_later. simpl.
        split; [lia|]. split; [done|].
        split; [destruct (clear_clicked inp); simpl; lia|].
        by intros ->.
    + split; [lia|]. split; [done|].
      split; [|intros ->; by rewrite app_nil_r].
      destruct (clear_clicked inp); simpl; [lia|].
      rewrite app_nil_r. lia.
  - destruct Hstep as [-> ->]. exists []. rewrite app_nil_r.
    split; [done|]. simpl. split; [lia|]. split; [done|].
    split; [lia|]. done.
Qed.

Lemma run_session_document_calls inps :
  ∀ w, well_formed w →
       length (document_calls (run_session env inps w))
       + credit (run_session env inps w)
       ≤ length (document_calls w) + credit w
         + length (List.filter clear_clicked inps).
Proof.
  induction inps as [|inp inps IH]; intros w Hwf; [simpl; lia|].
  destruct (document_calls_step inp w Hwf) as (extra & Hcalls & _ & _ & Hcredit & _).
  assert (well_formed (script_run env inp w)) as Hwf'
    by by apply script_run_step.
  specialize (IH _ Hwf'). rewrite Hcalls, length_app in IH.
  simpl run_session. simpl List.filter.
  destruct (clear_clicked inp); simpl length; simpl in Hcredit; lia.
Qed.

Lemma run_session_no_more_documents inps :
  ∀ w, well_formed w → transcript w ≠ [] →
       forallb (λ inp, negb (clear_clicked inp)) inps = true →
       document_calls (run_session env inps w) = document_calls w.
Proof.
  induction inps as [|inp inps IH]; intros w Hwf Hts Hclear; [done|].
  simpl in Hclear. apply andb_true_iff in Hclear as [Hinp Hclear].
  apply negb_true_iff in Hinp.
  destruct (document_calls_step inp w Hwf)
    as (extra & Hcalls & _ & Hextra & _ & Hkeep).
  assert (extra = []) as ->.
  { destruct extra; [done|]. by destruct Hextra as [? _]. }
  rewrite app_nil_r in Hcalls. simpl. rewrite IH; [done| | |done].
  - by apply script_run_step.
  - by apply Hkeep.
Qed.

(** C10, as the code has it: a call carries the document attachments only
    when it is made on a Transcript of length exactly 1 (the Transcript was
    empty when the message came in); this happens at most once as long as
    clear-history is not invoked, and at most once more for every
    clear-history, which empties the Transcript again.  Consequently, once
    the Transcript is non-empty (for instance after a failed first call),
    no further request carries document attachments until clear-history is
    invoked. *)
Theorem documents_attached_once_per_transcript (inps : list interaction) :
  length (document_calls (run_session env inps fresh_world))
  ≤ 1 + length (List.filter clear_clicked inps)
  ∧ (∀ inp,
       ∃ extra,
         document_calls (script_run env inp (run_session env inps fresh_world))
         = document_calls (run_session env inps fresh_world) ++ extra
         ∧ length extra ≤ 1
         ∧ (extra ≠ [] →
            ∃ prompt,
              submitted inp = Some prompt
              ∧ length (transcript (run_session env inps fresh_world)
                          ++ [user_turn prompt]) = 1))
  ∧ (∀ inps',
       transcript (run_session env inps fresh_world) ≠ [] →
       forallb (λ inp, negb (clear_clicked inp)) inps' = true →
       document_calls (run_session env (inps ++ inps') fresh_world)
       = document_calls (run_session env inps fresh_world)).
Proof.
  pose proof (run_session_well_formed env inps _ well_formed_fresh) as Hwf.
  split.
  - pose proof (run_session_document_calls inps _ well_formed_fresh) as Hle.
    change (length (document_calls fresh_world) + credit fresh_world)
      with 1 in Hle. lia.
  - split.
    + intros inp.
      destruct (document_calls_step inp _ Hwf)
        as (extra & Hcalls & Hlen & Hextra & _).
      exists extra. split; [done|]. split; [done|].
      intros Hne. destruct (Hextra Hne) as [Hts [prompt Hsub]].
      exists prompt. split; [done|]. by rewrite Hts.
    + intros inps' Hts Hclear. rewrite run_session_app.
      by apply run_session_no_more_documents.
Qed.

End attachments_over_a_session.

(** ** A worked session *)

Section worked_session.

Example first_message_carries_the_three_handouts :
  requests (log (run_session demo_env
                   [asks "When can I shower after rotator cuff surgery?" ["After "; "48 hours."]]
                   fresh_world))
  = [ [ {| wire_role := "user";
           wire_body :=
             wire_list
               [ pdf_document "%PDF-1.4 rotator cuff";
                 pdf_document "%PDF-1.4 knee";
                 pdf_document "%PDF-1.4 carpal tunnel";
                 text_item "When can I shower after rotator cuff surgery?" ] |} ] ].
Proof. vm_compute. reflexivity. Qed.

Example second_message_is_plain :
  requests (log (run_session demo_env [asks "Q1" ["A1"]; asks "Q2" ["A2"]] opened))
  = [ [ {| wire_role := "user";
           wire_body :=
             wire_list
               [ pdf_document "%PDF-1.4 rotator cuff";
                 pdf_document "%PDF-1.4 knee";
                 pdf_document "%PDF-1.4 carpal tunnel";
                 text_item "Q1" ] |} ];
      [ plain (user_turn "Q1"); plain (assistant_turn "A1");
        plain (user_turn "Q2") ] ].
Proof. vm_compute. reflexivity. Qed.

Example sidebar_shows_four_protocol_files :
  sidebar_events (heap opened) 1%positive (load_protocols demo_env)
  = [ sidebar_write "📄 PDF Handouts: 3"; sidebar_write "📋 Protocol Files: 4" ]
  ∧ log opened
    = [ sidebar_write "📄 PDF Handouts: 3"; sidebar_write "📋 Protocol Files: 4" ].
Proof. vm_compute. done. Qed.

(** C8: at the two protocol files of the scenario the derived count is 4. *)
Lemma protocol_count_of_two_files :
  protocol_count (load_protocols demo_env) = 4.
Proof.
  exact (protocol_count_is_twice_the_files demo_env _ eq_refl eq_refl).
Defined.

(** C2: a failed turn followed by a successful one leaves two user Turns
    in a row. *)
Lemma alternation_broken_after_failed_turn :
  transcript
    (run_session demo_env
       [asks_and_fails "Q1" ["par"] "rate limit"; asks "Q2" ["A2"]] fresh_world)
  = [user_turn "Q1"; user_turn "Q2"; assistant_turn "A2"]
  ∧ strictly_alternating
      (transcript
         (run_session demo_env
            [asks_and_fails "Q1" ["par"] "rate limit"; asks "Q2" ["A2"]]
            fresh_world))
    = false.
Proof. vm_compute. done. Qed.

(** C3 at a call that raises mid-stream. *)
Lemma rate_limit_mid_stream :
  ∃ w',
    chat_turn (asks_and_fails "Q1" ["par"; "tial"] "rate limit") opened
    = (inr tt, w')
    ∧ messages w' = Some ([] ++ [ {| role := "user"; content := "Q1" |} ])
    ∧ last (log w') = Some (st_error ("Error: " +:+ "rate limit"))
    ∧ pdf_contents w' = Some 1%positive
    ∧ protocols_text w' = Some (load_protocols demo_env)
    ∧ ∀ inp' prompt',
        chat_input inp' = Some prompt' →
        Py.truthy prompt' = true →
        ∃ rest,
          messages (chat_turn inp' w').2
          = Some ([] ++ [ {| role := "user"; content := "Q1" |};
                          {| role := "user"; content := prompt' |} ] ++ rest).
Proof.
  exact (failed_call_commits_no_assistant_turn
           (asks_and_fails "Q1" ["par"; "tial"] "rate limit") "Q1" "rate limit"
           (heap opened) [] 1%positive (load_protocols demo_env) (log opened)
           eq_refl eq_refl eq_refl).
Defined.

(** C4 at a stream of three increments. *)
Lemma three_increments_committed :
  ∃ w',
    call_and_commit "system" [] {| chunks := ["After "; "48 "; "hours."]; raised := None |}
      (World ∅ (Some [user_turn "Q1"]) None None []) = (inr tt, w')
    ∧ messages w'
      = Some ([user_turn "Q1"]
              ++ [ {| role := "assistant";
                      content := String.concat "" ["After "; "48 "; "hours."] |} ])
    ∧ last (log w')
      = Some (placeholder_markdown (String.concat "" ["After "; "48 "; "hours."])).
Proof.
  exact (committed_text_is_concatenation "system" []
           {| chunks := ["After "; "48 "; "hours."]; raised := None |}
           ∅ [user_turn "Q1"] None None [] eq_refl).
Defined.

(** C7: the empty string is ignored ... *)
Lemma empty_string_is_ignored :
  chat_turn (asks "" ["unused"]) opened = (inr tt, opened).
Proof.
  exact (empty_input_is_ignored (asks "" ["unused"]) opened (or_intror eq_refl)).
Defined.

(** ... but a single space is not: the Transcript grows and the provider
    is called. *)
Lemma whitespace_input_is_processed :
  whitespace_only " " = true
  ∧ transcript (chat_turn (asks " " ["Hello"]) opened).2
    = [user_turn " "; assistant_turn "Hello"]
  ∧ length (requests (log (chat_turn (asks " " ["Hello"]) opened).2)) = 1
  ∧ transcript opened = [].
Proof. vm_compute. done. Qed.

(** C9 along a session with a clear-history in the middle. *)
Lemma bundle_survives_a_session :
  bundle (run_session demo_env
            ([asks "Q1" ["A1"]] ++ [clears; asks "Q2" ["A2"]]) fresh_world)
  = Some (handouts demo_env, load_protocols demo_env).
Proof.
  refine (proj1 (bundle_is_never_mutated demo_env [asks "Q1" ["A1"]]
                   [clears; asks "Q2" ["A2"]]
                   (handouts demo_env, load_protocols demo_env) _)).
  vm_compute. reflexivity.
Defined.

(** C10: the first call fails, a second message follows, the history is
    cleared, and the next message carries the documents again: two calls
    with attachments in one session. *)
Lemma documents_sent_again_after_clear :
  length
    (document_calls
       (run_session demo_env
          [asks_and_fails "Q1" [] "overloaded"; asks "Q2" ["A2"]; clears;
           asks "Q3" ["A3"]]
          fresh_world))
  = 2
  ∧ carries_documents
      (default []
         (last (requests
                  (log (run_session demo_env
                          [asks_and_fails "Q1" [] "overloaded";
                           asks "Q2" ["A2"]; clears; asks "Q3" ["A3"]]
                          fresh_world)))))
    = true.
Proof. vm_compute. done. Qed.

(** C1 on the opened session, for a Transcript of one Turn. *)
Lemma first_turn_payload :
  ∃ api_messages w',
    build_api_messages
      (World (heap opened) (Some [user_turn "Q1"]) (Some 1%positive) None [])
    = (inr api_messages, w')
    ∧ (length [user_turn "Q1"] = 1 →
       ∃ turn,
         [user_turn "Q1"] = [turn]
         ∧ map (serialize (heap w')) api_messages
           = [ {| wire_role := "user";
                  wire_body :=
                    wire_list ((heap opened !!! 1%positive)
                               ++ [text_item (content turn)]) |} ])
    ∧ (length [user_turn "Q1"] ≠ 1 →
       map (serialize (heap w')) api_messages = map plain [user_turn "Q1"]
       ∧ attachments (map (serialize (heap w')) api_messages) = [])
    ∧ ((∃ m rest, m ∈ map (serialize (heap w')) api_messages
                  ∧ wire_body m
                    = wire_list ((heap opened !!! 1%positive) ++ rest))
       ↔ length [user_turn "Q1"] = 1).
Proof.
  exact (payload_attaches_documents_iff_first_turn
           (heap opened) [user_turn "Q1"] 1%positive None []).
Defined.

(** C2 on two completed exchanges. *)
Lemma two_exchanges_alternate :
  strictly_alternating
    (transcript
       (run_session demo_env [asks "Q1" ["A1"]; asks "Q2" ["A2"]] fresh_world))
  = true.
Proof.
  exact (proj1 (proj2 (transcript_role_shape demo_env
                         [asks "Q1" ["A1"]; asks "Q2" ["A2"]])) eq_refl).
Defined.

(** C5 on the two protocol files of the scenario. *)
Lemma two_protocol_files_loaded :
  (glob_suffix ".txt"
     [ {| name := "wound_care.txt"; bytes := "Keep the incision dry." |};
       {| name := "pt_schedule.txt"; bytes := "Week 1: pendulum exercises." |} ]
   = [] → load_protocols demo_env = "")
  ∧ load_protocols demo_env
    = String.concat ""
        (map (λ f, Py.LF +:+ Py.LF +:+ "=== " +:+ name f +:+ " ==="
                     +:+ Py.LF +:+ Py.LF +:+ bytes f)
             (glob_suffix ".txt"
                [ {| name := "wound_care.txt"; bytes := "Keep the incision dry." |};
                  {| name := "pt_schedule.txt";
                     bytes := "Week 1: pendulum exercises." |} ]))
  ∧ glob_suffix ".txt"
      [ {| name := "wound_care.txt"; bytes := "Keep the incision dry." |};
        {| name := "pt_schedule.txt"; bytes := "Week 1: pendulum exercises." |} ]
    = List.filter (λ f, Py.endswith (name f) ".txt")
        [ {| name := "wound_care.txt"; bytes := "Keep the incision dry." |};
          {| name := "pt_schedule.txt"; bytes := "Week 1: pendulum exercises." |} ]
  ∧ ∀ f, Py.endswith (name f) ".txt" = true
         ↔ ∃ stem, name f = stem +:+ ".txt".
Proof. exact (load_protocols_returns demo_env). Defined.

(** C6 on a clear-history after one exchange. *)
Lemma clear_after_one_exchange :
  transcript
    (script_run demo_env clears
       (run_session demo_env [asks "Q1" ["A1"]] fresh_world)) = []
  ∧ ∀ b, bundle (run_session demo_env [asks "Q1" ["A1"]] fresh_world) = Some b →
         bundle (script_run demo_env clears
                   (run_session demo_env [asks "Q1" ["A1"]] fresh_world))
         = Some b.
Proof.
  exact (proj1 (clear_history_resets_only_the_transcript demo_env
                  [asks "Q1" ["A1"]] clears) eq_refl eq_refl).
Defined.

(** C10 on a session without clear-history: the failed first call is the
    only one with attachments. *)
Lemma documents_sent_once_without_clear :
  document_calls
    (run_session demo_env
       ([asks_and_fails "Q1" [] "overloaded"] ++ [asks "Q2" ["A2"]; asks "Q3" ["A3"]])
       fresh_world)
  = document_calls
      (run_session demo_env [asks_and_fails "Q1" [] "overloaded"] fresh_world).
Proof.
  refine (proj2 (proj2 (documents_attached_once_per_transcript demo_env
                          [asks_and_fails "Q1" [] "overloaded"]))
            [asks "Q2" ["A2"]; asks "Q3" ["A3"]] _ eq_refl).
  vm_compute. discriminate.
Defined.

End worked_session.

(** ** The credential check and the loaders *)

Section startup.

(** X1: Without the credential ([ANTHROPIC_API_KEY] unset or empty) an
    execution shows the configuration error and stops there: the session
    state and the heap are as before, nothing is loaded and nothing is sent
    to the provider, whatever the widgets hold. *)
Theorem missing_credential_stops_the_script
    (env : environment) (inp : interaction) (w : world) :
  ANTHROPIC_API_KEY env = None ∨ ANTHROPIC_API_KEY env = Some "" →
  heap (script_run env inp w) = heap w
  ∧ messages (script_run env inp w) = messages w
  ∧ pdf_contents (script_run env inp w) = pdf_contents w
  ∧ protocols_text (script_run env inp w) = protocols_text w
  ∧ log (script_run env inp w)
    = log w ++ [st_error "ANTHROPIC_API_KEY environment variable not set!"]
  ∧ requests (log (script_run env inp w)) = requests (log w).
Proof.
  intros Hkey.
  assert (¬ key_set env) as Hno.
  { unfold key_set. by destruct Hkey as [-> | ->]. }
  destruct w as [h ms pc pt lg]. rewrite script_run_no_key by done. simpl.
  do 5 (split; [done|]).
  by rewrite requests_app, app_nil_r.
Qed.

(** X2: [load_pdfs] returns a new list object and touches nothing else.  The
    list is empty when the handouts directory is absent (an error is shown)
    or holds no [*.pdf] entry (a warning is shown); otherwise it holds, for
    the [*.pdf] entries in listing order, one document item each: base64
    source of media type application/pdf carrying the encoded bytes, with
    an ephemeral cache hint. *)
Theorem load_pdfs_builds_the_document_list (env : environment) (w : world) :
  ∃ l w',
    load_pdfs env w = (inr l, w')
    ∧ heap w !! l = None
    ∧ heap w'
      = <[l := map (λ f, document
                          {| source_type := "base64";
                             media_type := "application/pdf";
                             data := Py.b64encode (bytes f) |}
                          {| cache_type := "ephemeral" |})
                   (pdf_files env)]> (heap w)
    ∧ messages w' = messages w
    ∧ pdf_contents w' = pdf_contents w
    ∧ protocols_text w' = protocols_text w
    ∧ log w'
      = log w
        ++ match postop_handouts env with
           | None => [st_error "Directory 'postop_handouts' not found!"]
           | Some _ =>
               match pdf_files env with
               | [] => [st_warning "No PDF files found in 'postop_handouts'"]
               | _ :: _ => []
               end
           end.
Proof.
  destruct w as [h ms pc pt lg]. eexists _, _.
  split; [apply load_pdfs_spec|]. simpl.
  split; [apply not_elem_of_dom, is_fresh|].
  unfold handouts, load_pdfs_events, pdf_files, pdf_document.
  by destruct (postop_handouts env).
Qed.

Lemma loaded_from_well_formed env w : loaded_from env w → well_formed w.
Proof. intros [Hnone|Hb]; [by left|right]. by rewrite Hb. Qed.


End startup.

(** ** What a session sends and shows *)

Section traffic.

Variable env : environment.

Lemma script_run_keeps_loaded_from inp w :
  loaded_from env w → loaded_from env (script_run env inp w).
Proof.
  intros Hw.
  destruct (script_run_step env inp w (loaded_from_well_formed _ _ Hw))
    as (_ & Hkeep & _).
  destruct Hw as [Hnone|Hb]; [|right; by apply Hkeep].
  destruct (Py.truthy_opt (ANTHROPIC_API_KEY env)) eqn:Hkey.
  - right. by destruct (script_run_first env inp w Hkey Hnone) as (-> & _).
  - left. destruct w as [h ms pc pt lg].
    rewrite script_run_no_key; [done|]. unfold key_set. by rewrite Hkey.
Qed.

Lemma run_session_loaded_from inps :
  ∀ w, loaded_from env w → loaded_from env (run_session env inps w).
Proof.
  induction inps as [|inp inps IH]; intros w Hw; [done|].
  simpl. by apply IH, script_run_keeps_loaded_from.
Qed.

(** The events of one execution that got past the credential check. *)
Lemma script_run_log inp w :
  key_set env → loaded_from env w →
  ∃ h l,
    h !! l = Some (handouts env)
    ∧ log (script_run env inp w)
      = log w
        ++ match pdf_contents w with
           | None => load_pdfs_events env
           | Some _ => []
           end
        ++ run_events inp h l (load_protocols env) (transcript w).
Proof.
  intros Hkey Hw. destruct w as [h ms pc pt lg].
  destruct pc as [l|].
  - destruct Hw as [?|Hb]; [done|]. unfold bundle in Hb. simpl in Hb.
    destruct pt as [t|]; [|done].
    destruct (h !! l) as [docs|] eqn:Hl; [|done].
    injection Hb as -> ->.
    rewrite script_run_spec by done. by exists h, l.
  - rewrite script_run_unloaded, script_run_spec by done.
    eexists _, _. split; [apply lookup_insert_eq|].
    simpl. by rewrite <- app_assoc.
Qed.

Lemma call_settings_app es1 es2 :
  call_settings (es1 ++ es2) = call_settings es1 ++ call_settings es2.
Proof. apply omap_app. Qed.

Lemma call_settings_run inp h l t m :
  call_settings (run_events inp h l t m)
  = if submits inp then [(model_id, 2000, system_message_of t)] else [].
Proof.
  assert (∀ ts, call_settings (history_events ts) = []) as Hhistory.
  { induction ts as [|x ts IH]; [done|]. exact IH. }
  assert (∀ cs acc, call_settings (stream_frames acc cs) = []) as Hframes.
  { induction cs as [|c cs IH]; intros acc; [done|]. apply IH. }
  assert (∀ h', call_settings (sidebar_events h' l t) = []) as Hsidebar.
  { intros h'. unfold sidebar_events. by destruct (Py.truthy t). }
  unfold run_events, submits.
  rewrite !call_settings_app, Hhistory, Hsidebar.
  assert (call_settings (if clear_clicked inp
                         then sidebar_events (run_heap inp h l m) l t else [])
          = []) as -> by (destruct (clear_clicked inp); [apply Hsidebar|done]).
  rewrite app_nil_r. simpl.
  destruct (submitted inp) as [prompt|]; [|done].
  unfold turn_events. simpl. f_equal.
  rewrite call_settings_app, Hframes.
  unfold outcome_event. by destruct (raised (stream inp)).
Qed.

Lemma call_settings_load_pdfs : call_settings (load_pdfs_events env) = [].
Proof.
  unfold load_pdfs_events.
  destruct (postop_handouts env) as [listing|]; [|done].
  by destruct (glob_suffix ".pdf" listing).
Qed.

Lemma run_session_call_settings inps :
  ∀ w, loaded_from env w →
       Forall (λ c, c = (model_id, 2000, system_message_of (load_protocols env)))
              (call_settings (log w)) →
       Forall (λ c, c = (model_id, 2000, system_message_of (load_protocols env)))
              (call_settings (log (run_session env inps w))).
Proof.
  induction inps as [|inp inps IH]; intros w Hw Hcalls; [done|].
  simpl. apply IH; [by apply script_run_keeps_loaded_from|].
  destruct (Py.truthy_opt (ANTHROPIC_API_KEY env)) eqn:Hkey.
  - destruct (script_run_log inp w Hkey Hw) as (h & l & _ & ->).
    rewrite !call_settings_app, call_settings_run.
    apply Forall_app. split; [done|]. apply Forall_app. split.
    + destruct (pdf_contents w); [done|]. by rewrite call_settings_load_pdfs.
    + destruct (submits inp); by repeat constructor.
  - destruct w as [h ms pc pt lg].
    rewrite script_run_no_key by (unfold key_set; by rewrite Hkey).
    simpl. by rewrite call_settings_app, app_nil_r.
Qed.

(** X4: Every provider call of a session names the same model and the same
    limit of 2000 output tokens, and carries the same instruction block:
    the fixed text alone when no protocol text was loaded, and otherwise
    the fixed text, a blank line, the line [Additional Protocols:] and the
    protocol text. *)
Theorem every_call_uses_the_fixed_settings (inps : list interaction) :
  Forall (λ c, c = ("claude-sonnet-4-20250514", 2000,
                    if Py.truthy (load_protocols env)
                    then base_system_message +:+
                           (Py.LF +:+ Py.LF +:+ "Additional Protocols:"
                              +:+ Py.LF +:+ load_protocols env)
                    else base_system_message))
         (call_settings (log (run_session env inps fresh_world))).
Proof.
  apply (run_session_call_settings inps fresh_world); [by left|constructor].
Qed.



Lemma run_session_transcript inps :
  ∀ w, well_formed w → key_set env →
       forallb (λ inp, negb (clear_clicked inp)) inps = true →
       transcript (run_session env inps w)
       = transcript w ++ flat_map run_turns inps.
Proof.
  induction inps as [|inp inps IH]; intros w Hwf Hkey Hclear.
  - simpl. by rewrite app_nil_r.
  - simpl in Hclear. apply andb_true_iff in Hclear as [Hinp Hclear].
    apply negb_true_iff in Hinp.
    destruct (script_run_step env inp w Hwf) as (Hwf' & _ & Hstep).
    rewrite Hkey in Hstep. destruct Hstep as (_ & Hts & _).
    simpl. rewrite (IH _ Hwf' Hkey Hclear), Hts, Hinp.
    by rewrite <- app_assoc.
Qed.

(** X6: In a session without clear-history the Transcript is a plain log of
    what happened: for each submitted prompt, in order, the user Turn
    holding the prompt as typed, followed by the assistant Turn holding the
    streamed text when the call completed and by nothing when it failed. *)
Theorem transcript_is_the_log_of_turns (inps : list interaction) :
  key_set env →
  forallb (λ inp, negb (clear_clicked inp)) inps = true →
  transcript (run_session env inps fresh_world)
  = flat_map
      (λ inp,
         match chat_input inp with
         | Some prompt =>
             if Py.truthy prompt
             then {| role := "user"; content := prompt |}
                  :: match raised (stream inp) with
                     | None =>
                         [ {| role := "assistant";
                              content := String.concat "" (chunks (stream inp)) |} ]
                     | Some _ => []
                     end
             else []
         | None => []
         end) inps.
Proof.
  intros Hkey Hclear.
  rewrite (run_session_transcript inps fresh_world well_formed_fresh Hkey Hclear).
  simpl. apply flat_map_ext. intros inp.
  unfold run_turns, submitted, reply.
  destruct (chat_input inp) as [prompt|]; [|done].
  destruct (Py.truthy prompt); [|done].
  destruct (raised (stream inp)); [done|].
  by rewrite accumulate_concat, append_nil_l.
Qed.

End traffic.

(** ** What an execution shows *)

Section display.

Lemma concat_cons (x : string) (xs : list string) :
  String.concat "" (x :: xs) = x +:+ String.concat "" xs.
Proof. destruct xs; [by rewrite append_nil_r|done]. Qed.

Lemma stream_frames_indexed (cs : list string) :
  ∀ acc,
    stream_frames acc cs
    = map (λ i, placeholder_markdown
                  ((acc +:+ String.concat "" (take (S i) cs))
                     +:+ continuation_marker))
          (seq 0 (length cs)).
Proof.
  induction cs as [|c cs IH]; intros acc; [done|].
  simpl length. rewrite <- cons_seq, <- seq_shift.
  simpl stream_frames. rewrite IH. rewrite map_cons, map_map.
  f_equal. apply List.map_ext. intros i.
  change (take (S (S i)) (c :: cs)) with (c :: take (S i) cs).
  by rewrite concat_cons, <- (append_assoc acc c).
Qed.

(** X7: What one provider call shows and sends, in order: the request; after
    each increment the text received so far followed by the continuation
    marker; and at the end either the whole text without the marker (the
    call completed) or the error line (the call raised).  The Transcript
    gains the assistant Turn in the first case only; the heap, the bundle
    reference and the protocol text are not touched. *)
Theorem a_call_shows_the_text_so_far
    (system_message : string) (api_messages : list api_message)
    (answer : stream_outcome) (h : gmap loc (list content_item))
    (m : list message) (pc : option loc) (pt : option string) (lg : list event) :
  call_and_commit system_message api_messages answer
    (World h (Some m) pc pt lg)
  = (inr tt,
     World h
       (Some (m ++ match raised answer with
                   | None =>
                       [ {| role := "assistant";
                            content := String.concat "" (chunks answer) |} ]
                   | Some _ => []
                   end))
       pc pt
         (lg ++ [messages_stream "claude-sonnet-4-20250514" 2000 system_message
                   (map (serialize h) api_messages)]
             ++ map (λ i, placeholder_markdown
                            (String.concat "" (take (S i) (chunks answer))
                               +:+ "▌"))
                    (seq 0 (length (chunks answer)))
             ++ [match raised answer with
                 | None =>
                     placeholder_markdown (String.concat "" (chunks answer))
                 | Some msg => st_error ("Error: " +:+ msg)
                 end])).
Proof.
  rewrite call_and_commit_spec, stream_frames_indexed.
  unfold outcome_event, reply, assistant_turn.
  rewrite accumulate_concat, append_nil_l.
  by destruct (raised answer).
Qed.

Variable env : environment.

Lemma length_handouts : length (handouts env) = length (pdf_files env).
Proof.
  unfold handouts, pdf_files.
  destruct (postop_handouts env); [by rewrite length_map|done].
Qed.

(** X8: Every execution that gets past the credential check ends by showing
    the number of handouts, which is the number of [*.pdf] entries the
    handouts directory held when the bundle was loaded; the protocol line
    follows exactly when some protocol text was loaded. *)
Theorem sidebar_counts_close_every_execution
    (inps : list interaction) (inp : interaction) :
  key_set env →
  ∃ before,
    log (script_run env inp (run_session env inps fresh_world))
    = before
      ++ sidebar_write
           ("📄 PDF Handouts: " +:+ Py.str_of_nat (length (pdf_files env)))
      :: (if Py.truthy (load_protocols env)
          then [sidebar_write
                  ("📋 Protocol Files: " +:+
                   Py.str_of_nat (Py.count (load_protocols env) "==="))]
          else []).
Proof.
  intros Hkey.
  assert (loaded_from env (run_session env inps fresh_world)) as Hw
    by (apply run_session_loaded_from; by left).
  destruct (script_run_log env inp _ Hkey Hw) as (h & l & Hl & ->).
  unfold run_events.
  assert (sidebar_events (run_heap inp h l
                            (transcript (run_session env inps fresh_world)))
                         l (load_protocols env)
          = sidebar_write
              ("📄 PDF Handouts: " +:+ Py.str_of_nat (length (pdf_files env)))
            :: (if Py.truthy (load_protocols env)
                then [sidebar_write
                        ("📋 Protocol Files: " +:+
                         Py.str_of_nat (Py.count (load_protocols env) "==="))]
                else [])) as ->.
  { unfold sidebar_events.
    rewrite (lookup_total_correct _ _ _ (run_heap_lookup inp _ _ _ _ Hl)).
    by rewrite length_handouts. }
  destruct (clear_clicked inp).
  - eexists. rewrite !app_assoc. done.
  - eexists. rewrite app_nil_r, !app_assoc. done.
Qed.

(** X9: Every execution that gets past the credential check first reports on
    the handouts directory if this is the execution that loads the bundle,
    and then renders the whole Transcript again, one chat message per Turn
    in order, before it looks at the input. *)
Theorem history_is_rendered_first
    (inps : list interaction) (inp : interaction) :
  key_set env →
  ∃ rest,
    log (script_run env inp (run_session env inps fresh_world))
    = log (run_session env inps fresh_world)
      ++ match pdf_contents (run_session env inps fresh_world) with
         | None => load_pdfs_events env
         | Some _ => []
         end
      ++ map (λ t, chat_markdown (role t) (content t))
             (transcript (run_session env inps fresh_world))
      ++ rest.
Proof.
  intros Hkey.
  assert (loaded_from env (run_session env inps fresh_world)) as Hw
    by (apply run_session_loaded_from; by left).
  destruct (script_run_log env inp _ Hkey Hw) as (h & l & _ & ->).
  unfold run_events. by eexists.
Qed.

End display.

(** ** The base64 text of a handout *)

Section base64.

Local Open Scope N_scope.

Lemma b64_index_digit (n : N) : b64_index (Py.b64_digit n) = n mod 64.
Proof.
  unfold Py.b64_digit.
  assert (N.to_nat (n mod 64) < 64)%nat as Hk
    by (pose proof (N.mod_upper_bound n 64); lia).
  rewrite <- (N2Nat.id (n mod 64)) at 2.
  generalize dependent (N.to_nat (n mod 64)). intros k Hk.
  do 64 (destruct k as [|k]; [vm_compute; reflexivity|]). lia.
Qed.

Lemma b64_digit_inj (n n' : N) :
  Py.b64_digit n = Py.b64_digit n' → n mod 64 = n' mod 64.
Proof. intros H. by rewrite <- !b64_index_digit, H. Qed.

Lemma b64_digit_not_pad (n : N) : Py.b64_digit n ≠ "="%char.
Proof.
  intros H. pose proof (b64_index_digit n) as Hi. rewrite H in Hi.
  change (b64_index "="%char) with 64 in Hi.
  pose proof (N.mod_upper_bound n 64). lia.
Qed.

Lemma digits_determine (n n' : N) :
  n < 16777216 → n' < 16777216 →
  (n / 262144) mod 64 = (n' / 262144) mod 64 →
  (n / 4096) mod 64 = (n' / 4096) mod 64 →
  (n / 64) mod 64 = (n' / 64) mod 64 →
  n mod 64 = n' mod 64 →
  n = n'.
Proof.
  intros Hn Hn' H1 H2 H3 H4.
  assert (n / 262144 = n' / 262144) as E1.
  { rewrite !N.mod_small in H1; [done| |];
      apply N.Div0.div_lt_upper_bound; lia. }
  assert (n / 4096 = n' / 4096) as E2.
  { rewrite (N.div_mod (n / 4096) 64), (N.div_mod (n' / 4096) 64) by done.
    rewrite !N.Div0.div_div. change (4096 * 64) with 262144. congruence. }
  assert (n / 64 = n' / 64) as E3.
  { rewrite (N.div_mod (n / 64) 64), (N.div_mod (n' / 64) 64) by done.
    rewrite !N.Div0.div_div. change (64 * 64) with 4096. congruence. }
  rewrite (N.div_mod n 64), (N.div_mod n' 64) by done. congruence.
Qed.

Lemma N_of_ascii_inj (a a' : ascii) : N_of_ascii a = N_of_ascii a' → a = a'.
Proof.
  intros H. by rewrite <- (ascii_N_embedding a), <- (ascii_N_embedding a'), H.
Qed.

Lemma low_digits_zero (x : N) :
  ((x * 4096) / 64) mod 64 = 0 ∧ (x * 4096) mod 64 = 0.
Proof.
  replace (x * 4096) with (x * 64 * 64) by lia.
  rewrite N.div_mul by done. by rewrite !N.Div0.mod_mul.
Qed.

Lemma bytes_determine (a b c a' b' c' : ascii) :
  N_of_ascii a * 65536 + N_of_ascii b * 256 + N_of_ascii c
  = N_of_ascii a' * 65536 + N_of_ascii b' * 256 + N_of_ascii c' →
  a = a' ∧ b = b' ∧ c = c'.
Proof.
  intros H.
  pose proof (N_ascii_bounded a). pose proof (N_ascii_bounded b).
  pose proof (N_ascii_bounded c). pose proof (N_ascii_bounded a').
  pose proof (N_ascii_bounded b'). pose proof (N_ascii_bounded c').
  assert (N_of_ascii a = N_of_ascii a' ∧ N_of_ascii b = N_of_ascii b'
          ∧ N_of_ascii c = N_of_ascii c') as (Ha & Hb & Hc) by lia.
  rewrite <- (ascii_N_embedding a), <- (ascii_N_embedding a'),
    <- (ascii_N_embedding b), <- (ascii_N_embedding b'),
    <- (ascii_N_embedding c), <- (ascii_N_embedding c').
  by rewrite Ha, Hb, Hc.
Qed.

Lemma string_ind3 (P : string → Prop) :
  P "" →
  (∀ a, P (String a "")) →
  (∀ a b, P (String a (String b ""))) →
  (∀ a b c rest, P rest → P (String a (String b (String c rest)))) →
  ∀ s, P s.
Proof.
  intros H0 H1 H2 H3 s.
  cut (P s ∧ (∀ a, P (String a s)) ∧ (∀ a b, P (String a (String b s)))).
  { by intros [? _]. }
  induction s as [|c s (IH0 & IH1 & IH2)]; [done|].
  split; [apply IH1|]. split; [intros a; apply IH2|].
  intros a b. by apply H3.
Qed.

Lemma b64encode_1 a :
  Py.b64encode (String a "")
  = String (Py.b64_digit (N_of_ascii a * 65536 / 262144))
      (String (Py.b64_digit (N_of_ascii a * 65536 / 4096)) "==").
Proof. reflexivity. Qed.

Lemma b64encode_2 a b :
  Py.b64encode (String a (String b ""))
  = String (Py.b64_digit ((N_of_ascii a * 65536 + N_of_ascii b * 256) / 262144))
      (String (Py.b64_digit ((N_of_ascii a * 65536 + N_of_ascii b * 256) / 4096))
         (String (Py.b64_digit ((N_of_ascii a * 65536 + N_of_ascii b * 256) / 64))
            "=")).
Proof. reflexivity. Qed.

Lemma b64encode_3 a b c rest :
  Py.b64encode (String a (String b (String c rest)))
  = String (Py.b64_digit
              ((N_of_ascii a * 65536 + N_of_ascii b * 256 + N_of_ascii c) / 262144))
      (String (Py.b64_digit
                 ((N_of_ascii a * 65536 + N_of_ascii b * 256 + N_of_ascii c) / 4096))
         (String (Py.b64_digit
                    ((N_of_ascii a * 65536 + N_of_ascii b * 256 + N_of_ascii c) / 64))
            (String (Py.b64_digit
                       (N_of_ascii a * 65536 + N_of_ascii b * 256 + N_of_ascii c))
               (Py.b64encode rest)))).
Proof. reflexivity. Qed.

Lemma group_bound (a b c : ascii) :
  N_of_ascii a * 65536 + N_of_ascii b * 256 + N_of_ascii c < 16777216.
Proof.
  pose proof (N_ascii_bounded a). pose proof (N_ascii_bounded b).
  pose proof (N_ascii_bounded c). lia.
Qed.

(** X10: The base64 text determines the bytes: two handouts with the same
    encoded data have the same content. *)
Theorem b64encode_injective (s1 s2 : string) :
  Py.b64encode s1 = Py.b64encode s2 → s1 = s2.
Proof.
  revert s2. induction s1 as [|a|a b|a b c rest IH] using string_ind3;
    intros s2; induction s2 as [|a'|a' b'|a' b' c' rest' _] using string_ind3;
    rewrite ?b64encode_1, ?b64encode_2, ?b64encode_3; intros Heq;
    try discriminate Heq; try done.
  all: simplify_eq.
  all: try (exfalso;
            match goal with
            | H : "="%char = Py.b64_digit _ |- _ =>
                symmetry in H; by eapply b64_digit_not_pad
            | H : Py.b64_digit _ = "="%char |- _ =>
                by eapply b64_digit_not_pad
            end).
  all: repeat match goal with
         | H : Py.b64_digit _ = Py.b64_digit _ |- _ => apply b64_digit_inj in H
         end.
  - pose proof (N_ascii_bounded a). pose proof (N_ascii_bounded a').
    destruct (low_digits_zero (N_of_ascii a * 16)) as [L3 L4].
    destruct (low_digits_zero (N_of_ascii a' * 16)) as [L3' L4'].
    replace (N_of_ascii a * 16 * 4096) with (N_of_ascii a * 65536) in * by lia.
    replace (N_of_ascii a' * 16 * 4096) with (N_of_ascii a' * 65536) in * by lia.
    assert (N_of_ascii a * 65536 = N_of_ascii a' * 65536) as Hn
      by (apply digits_determine; [lia|lia|done|done|congruence|congruence]).
    f_equal. apply N_of_ascii_inj. lia.
  - pose proof (N_ascii_bounded a). pose proof (N_ascii_bounded a').
    pose proof (N_ascii_bounded b). pose proof (N_ascii_bounded b').
    assert (∀ x y, (x * 65536 + y * 256) mod 64 = 0) as L4.
    { intros x y. replace (x * 65536 + y * 256) with ((x * 1024 + y * 4) * 64)
        by lia. apply N.Div0.mod_mul. }
    assert (N_of_ascii a * 65536 + N_of_ascii b * 256
            = N_of_ascii a' * 65536 + N_of_ascii b' * 256) as Hn
      by (apply digits_determine; [lia|lia|done|done|done|by rewrite !L4]).
    assert (N_of_ascii a = N_of_ascii a' ∧ N_of_ascii b = N_of_ascii b')
      as [Ha Hb] by lia.
    by rewrite (N_of_ascii_inj _ _ Ha), (N_of_ascii_inj _ _ Hb).
  - assert (N_of_ascii a * 65536 + N_of_ascii b * 256 + N_of_ascii c
            = N_of_ascii a' * 65536 + N_of_ascii b' * 256 + N_of_ascii c') as Hn
      by (apply digits_determine; try done; apply group_bound).
    destruct (bytes_determine _ _ _ _ _ _ Hn) as (-> & -> & ->).
    do 3 f_equal. by apply IH.
Qed.

(** X11: The encoded text has four characters for every three bytes, the last
    group padded. *)
Theorem b64encode_length (s : string) :
  String.length (Py.b64encode s) = (4 * ((String.length s + 2) / 3))%nat.
Proof.
  induction s as [|a|a b|a b c rest IH] using string_ind3; try done.
  rewrite b64encode_3. simpl String.length. rewrite IH.
  replace (S (S (S (String.length rest))) + 2)%nat
    with (String.length rest + 2 + 1 * 3)%nat by lia.
  rewrite Nat.div_add by done. lia.
Qed.

End base64.

(** ** From the directories to the wire *)

Section end_to_end.

Variable env : environment.

(** X12: What a submitted prompt sends, in terms of the session: on an empty
    Transcript a single user message holding the handouts loaded at the
    start of the session, in order, followed by the prompt as a text item;
    on a non-empty Transcript the whole Transcript so far, the Turns of
    failed calls included, followed by the prompt, each as a plain
    message. *)
Theorem a_prompt_sends_the_handouts_or_the_history
    (inps : list interaction) (inp : interaction) (prompt : string) :
  key_set env →
  chat_input inp = Some prompt → Py.truthy prompt = true →
  requests (log (script_run env inp (run_session env inps fresh_world)))
  = requests (log (run_session env inps fresh_world))
    ++ [ match transcript (run_session env inps fresh_world) with
         | [] =>
             [ {| wire_role := "user";
                  wire_body :=
                    wire_list
                      (map (λ f, pdf_document (bytes f)) (pdf_files env)
                       ++ [text_item prompt]) |} ]
         | _ :: _ =>
             map (λ t, {| wire_role := role t;
                          wire_body := wire_str (content t) |})
                 (transcript (run_session env inps fresh_world)
                  ++ [ {| role := "user"; content := prompt |} ])
         end ].
Proof.
  intros Hkey Hin Htruthy.
  assert (loaded_from env (run_session env inps fresh_world)) as Hw
    by (apply run_session_loaded_from; by left).
  destruct (script_run_log env inp _ Hkey Hw) as (h & l & Hl & ->).
  rewrite !requests_app, requests_run, (submitted_Some _ _ Hin Htruthy).
  assert (requests match pdf_contents (run_session env inps fresh_world) with
                   | Some _ => []
                   | None => load_pdfs_events env
                   end = []) as ->
    by (destruct (pdf_contents _); [done|apply requests_load_pdfs]).
  simpl. do 2 f_equal. unfold turn_payload.
  rewrite (lookup_total_correct _ _ _ Hl).
  unfold handouts, pdf_files.
  destruct (transcript _); [|done].
  by destruct (postop_handouts env).
Qed.

End end_to_end.

(** ** The worked session, continued *)

Section worked_session_continued.

Lemma no_key_no_session :
  heap (script_run {| ANTHROPIC_API_KEY := None;
                      postop_handouts := postop_handouts demo_env;
                      protocols := protocols demo_env |}
          (asks "Q1" ["A1"]) fresh_world) = heap fresh_world
  ∧ messages (script_run {| ANTHROPIC_API_KEY := None;
                            postop_handouts := postop_handouts demo_env;
                            protocols := protocols demo_env |}
                (asks "Q1" ["A1"]) fresh_world) = messages fresh_world
  ∧ pdf_contents (script_run {| ANTHROPIC_API_KEY := None;
                                postop_handouts := postop_handouts demo_env;
                                protocols := protocols demo_env |}
                    (asks "Q1" ["A1"]) fresh_world) = pdf_contents fresh_world
  ∧ protocols_text (script_run {| ANTHROPIC_API_KEY := None;
                                  postop_handouts := postop_handouts demo_env;
                                  protocols := protocols demo_env |}
                      (asks "Q1" ["A1"]) fresh_world)
    = protocols_text fresh_world
  ∧ log (script_run {| ANTHROPIC_API_KEY := None;
                       postop_handouts := postop_handouts demo_env;
                       protocols := protocols demo_env |}
           (asks "Q1" ["A1"]) fresh_world)
    = log fresh_world
      ++ [st_error "ANTHROPIC_API_KEY environment variable not set!"]
  ∧ requests (log (script_run {| ANTHROPIC_API_KEY := None;
                                 postop_handouts := postop_handouts demo_env;
                                 protocols := protocols demo_env |}
                     (asks "Q1" ["A1"]) fresh_world))
    = requests (log fresh_world).
Proof.
  exact (missing_credential_stops_the_script
           {| ANTHROPIC_API_KEY := None;
              postop_handouts := postop_handouts demo_env;
              protocols := protocols demo_env |}
           (asks "Q1" ["A1"]) fresh_world (or_introl eq_refl)).
Defined.


Lemma transcript_of_three_prompts :
  transcript
    (run_session demo_env
       [asks "Q1" ["A"; "1"]; idle; asks_and_fails "Q2" ["par"] "overloaded";
        asks "" ["unused"]; asks "Q3" ["A3"]]
       fresh_world)
  = [ {| role := "user"; content := "Q1" |};
      {| role := "assistant"; content := "A1" |};
      {| role := "user"; content := "Q2" |};
      {| role := "user"; content := "Q3" |};
      {| role := "assistant"; content := "A3" |} ].
Proof.
  exact (transcript_is_the_log_of_turns demo_env
           [asks "Q1" ["A"; "1"]; idle;
            asks_and_fails "Q2" ["par"] "overloaded";
            asks "" ["unused"]; asks "Q3" ["A3"]]
           eq_refl eq_refl).
Defined.

Lemma counts_after_an_exchange :
  ∃ before,
    log (script_run demo_env (asks "Q2" ["A2"])
           (run_session demo_env [asks "Q1" ["A1"]] fresh_world))
    = before
      ++ sidebar_write
           ("📄 PDF Handouts: " +:+ Py.str_of_nat (length (pdf_files demo_env)))
      :: (if Py.truthy (load_protocols demo_env)
          then [sidebar_write
                  ("📋 Protocol Files: " +:+
                   Py.str_of_nat (Py.count (load_protocols demo_env) "==="))]
          else []).
Proof.
  exact (sidebar_counts_close_every_execution demo_env
           [asks "Q1" ["A1"]] (asks "Q2" ["A2"]) eq_refl).
Defined.

Lemma history_of_one_exchange_is_rendered :
  ∃ rest,
    log (script_run demo_env idle
           (run_session demo_env [asks "Q1" ["A1"]] fresh_world))
    = log (run_session demo_env [asks "Q1" ["A1"]] fresh_world)
      ++ match pdf_contents (run_session demo_env [asks "Q1" ["A1"]] fresh_world)
         with
         | None => load_pdfs_events demo_env
         | Some _ => []
         end
      ++ map (λ t, chat_markdown (role t) (content t))
             (transcript (run_session demo_env [asks "Q1" ["A1"]] fresh_world))
      ++ rest.
Proof.
  exact (history_is_rendered_first demo_env [asks "Q1" ["A1"]] idle eq_refl).
Defined.

Lemma equal_encodings_equal_bytes : "%PDF-1.4 knee" = "%PDF-1.4 knee".
Proof.
  exact (b64encode_injective "%PDF-1.4 knee" "%PDF-1.4 knee" eq_refl).
Defined.

Lemma second_prompt_after_a_failure :
  requests
    (log (script_run demo_env (asks "Q2" ["A2"])
            (run_session demo_env
               [asks_and_fails "Q1" [] "overloaded"] fresh_world)))
  = requests
      (log (run_session demo_env
              [asks_and_fails "Q1" [] "overloaded"] fresh_world))
    ++ [ match transcript
                 (run_session demo_env
                    [asks_and_fails "Q1" [] "overloaded"] fresh_world)
         with
         | [] =>
             [ {| wire_role := "user";
                  wire_body :=
                    wire_list
                      (map (λ f, pdf_document (bytes f)) (pdf_files demo_env)
                       ++ [text_item "Q2"]) |} ]
         | _ :: _ =>
             map (λ t, {| wire_role := role t;
                          wire_body := wire_str (content t) |})
                 (transcript
                    (run_session demo_env
                       [asks_and_fails "Q1" [] "overloaded"] fresh_world)
                  ++ [ {| role := "user"; content := "Q2" |} ])
         end ].
Proof.
  exact (a_prompt_sends_the_handouts_or_the_history demo_env
           [asks_and_fails "Q1" [] "overloaded"] (asks "Q2" ["A2"]) "Q2"
           eq_refl eq_refl eq_refl).
Defined.

Example calls_of_the_worked_session :
  call_settings
    (log (run_session demo_env
            [asks_and_fails "Q1" [] "overloaded"; asks "Q2" ["A2"]] fresh_world))
  = [ ("claude-sonnet-4-20250514", 2000, system_message_of (load_protocols demo_env));
      ("claude-sonnet-4-20250514", 2000, system_message_of (load_protocols demo_env)) ]
  ∧ Py.b64encode "Man" = "TWFu"
  ∧ Py.b64encode "Ma" = "TWE="
  ∧ Py.b64encode "M" = "TQ==".
Proof. vm_compute. done. Qed.

End worked_session_continued.
